(** * imagePreProcessing: validation, de-duplication, copying and logging

    A shallow embedding of [imagePreProcessing.py].  Python lists become Rocq
    lists, a checked entry [[file_name, nr_of_error]] becomes a pair
    [string * Z], and the uncaught exceptions of the script are threaded
    through a small error monad.  The operations the script calls on images
    (Pillow, numpy, [os.path.getsize]) are the fields of a record ([Pillow]),
    and [shutil.copyfile] and [open] those of another ([filesystem]), so that
    every general statement holds for whatever they compute or raise; the
    path and pattern functions of the standard library ([os.path], [pathlib],
    [glob], [fnmatch]) are written out for POSIX. *)

From Stdlib Require Import List String Ascii ZArith QArith Bool Lia Arith.
From Stdlib Require Import Permutation Sorting.Sorted Sorting.Mergesort Orders.
From Stdlib Require Import DecimalString DecimalNat DecimalZ.
Import ListNotations.

Local Open Scope Z_scope.

(** ** Exceptions *)

(** [IOError] is [OSError] with its subclasses, which is what
    [except IOError] catches; [Exception] is any other class, by name. *)
Inductive exn : Type :=
| IOError
| ValueError
| Exception (name : string).

Inductive result (A : Type) : Type :=
| Ok (a : A)
| Raise (e : exn).

Arguments Ok {A} a.
Arguments Raise {A} e.

Definition bind {A B : Type} (c : result A) (k : A -> result B) : result B :=
  match c with
  | Ok a => k a
  | Raise e => Raise e
  end.

Notation "x <- c ;; k" := (bind c (fun x => k))
  (at level 61, c at next level, right associativity).

(** ** Python string methods used by the script *)

Definition lower_ascii (c : ascii) : ascii :=
  let n := nat_of_ascii c in
  if (65 <=? n)%nat && (n <=? 90)%nat then ascii_of_nat (n + 32) else c.

(** [str.lower] *)
Fixpoint lower (s : string) : string :=
  match s with
  | EmptyString => EmptyString
  | String c s' => String (lower_ascii c) (lower s')
  end.

(** [str.endswith] with one suffix *)
Definition endswith (s suffix : string) : bool :=
  let n := String.length s in
  let m := String.length suffix in
  (m <=? n)%nat && String.eqb (substring (n - m) m s) suffix.

(** [str.endswith] with a tuple of suffixes *)
Definition endswith_any (s : string) (suffixes : list string) : bool :=
  existsb (endswith s) suffixes.

(** ** The library operations *)

(** A bounding box as [getbbox] returns it: left, upper, right, lower. *)
Definition bbox : Type := (Z * Z * Z * Z)%type.

(** The calls that read a file or its pixel data return or raise:
    [Image.open] reads what identifies the image and nothing more, and the
    pixel data are decoded when [ImageStat.Stat] or [ImageChops.difference]
    first needs them.  The size on disk, the size of the image and the
    shape of the array of an image already decoded are taken to return. *)
Record Pillow : Type := {
  Image : Type;
  (** [Image.open(path)] *)
  Image_open : string -> result Image;
  (** [os.path.getsize(path)] *)
  getsize : string -> Z;
  (** [ImageStat.Stat(img).var], one variance per band *)
  stat_var : Image -> result (list Q);
  (** [im.size] *)
  im_size : Image -> Z * Z;
  (** [np.array(img).shape] *)
  array_shape : Image -> list Z;
  (** [ImageChops.difference(im1, im2).getbbox()]: a bounding box or [None] *)
  difference_getbbox : Image -> Image -> result (option bbox)
}.

(** The values [is_equal] can return: a bounding box, [None], or the number 6. *)
Inductive pyval : Type :=
| PyNone
| PyTuple (b : bbox)
| PyInt (n : Z).

Definition is_None (v : pyval) : bool :=
  match v with
  | PyNone => true
  | _ => false
  end.

(** [sum] of a list of variances, starting from 0 as Python does *)
Definition py_sum (l : list Q) : Q := fold_left Qplus l (0 # 1)%Q.

Definition allowed_extensions : list string :=
  [".jpg"; ".JPG"; ".JPEG"; ".jpeg"]%string.

(** A checked entry, [[file_name, nr_of_error]]. *)
Definition checked : Type := (string * Z)%type.

Section Validator.

Context (P : Pillow).

(** The nested function [is_equal] of [validate_file]: it catches
    [ValueError] and nothing else. *)
Definition is_equal (im1 im2 : Image P) : result pyval :=
  match difference_getbbox P im1 im2 with
  | Ok None => Ok PyNone
  | Ok (Some b) => Ok (PyTuple b)
  | Raise ValueError => Ok (PyInt 6)
  | Raise e => Raise e
  end.

(** The loop [for image in checked_files] of [validate_file]. *)
Fixpoint compare_loop (im1 : Image P) (checked_files : list checked)
    (nr_of_error : Z) : result Z :=
  match checked_files with
  | [] => Ok nr_of_error
  | image :: rest =>
      let image_path := fst image in
      if negb (snd image =? 3) && negb (snd image =? 1) then
        im2 <- Image_open P image_path ;;
        res <- is_equal im1 im2 ;;
        if is_None res then Ok 6
        else compare_loop im1 rest nr_of_error
      else compare_loop im1 rest nr_of_error
  end.

Definition validate_file (file_path output_dir : string)
    (checked_files : list checked) : result Z :=
  let nr_of_error := 0 in
  match Image_open P file_path with
  | Raise IOError => Ok 3
  | Raise e => Raise e
  | Ok _ =>
      let file_has_allowed_extension :=
        endswith_any (lower file_path) allowed_extensions in
      if negb file_has_allowed_extension then Ok 1 else
      let file_size := getsize P file_path in
      let file_has_allowed_size := file_size >? 10000 in
      if negb file_has_allowed_size then Ok 2 else
      img <- Image_open P file_path ;;
      variance <- stat_var P img ;;
      let file_has_variance := negb (Qle_bool (py_sum variance) (0 # 1)) in
      if negb file_has_variance then Ok 4 else
      im <- Image_open P file_path ;;
      let '(width, height) := im_size P im in
      let file_has_dims := (width >=? 100) && (height >=? 100) in
      let shape := array_shape P img in
      if negb file_has_dims || (2 <? Z.of_nat (List.length shape)) then Ok 5 else
      im1 <- Image_open P file_path ;;
      compare_loop im1 checked_files nr_of_error
  end.

(** The loop of [check_files], from a given [checked_files]. *)
Fixpoint check_loop (sorted_files : list string) (output_dir : string)
    (checked_files : list checked) : result (list checked) :=
  match sorted_files with
  | [] => Ok checked_files
  | file_name :: rest =>
      nr_of_error <- validate_file file_name output_dir checked_files ;;
      check_loop rest output_dir (checked_files ++ [(file_name, nr_of_error)])
  end.

Definition check_files (sorted_files : list string) (output_dir : string)
    : result (list checked) :=
  check_loop sorted_files output_dir [].

End Validator.

(** ** Splitting the checked files *)

(** The loop of [separate_files], from given [valid_files] and
    [invalid_files]. *)
Fixpoint separate_loop (checked_files valid_files invalid_files : list checked)
    : list checked * list checked :=
  match checked_files with
  | [] => (valid_files, invalid_files)
  | c :: rest =>
      if snd c =? 0 then separate_loop rest (valid_files ++ [c]) invalid_files
      else separate_loop rest valid_files (invalid_files ++ [c])
  end.

Definition separate_files (checked_files : list checked)
    : list checked * list checked :=
  separate_loop checked_files [] [].

(** ** Paths: [os.path] and [pathlib] on POSIX *)

Definition startswith (s pre : string) : bool := String.prefix pre s.

(** [os.path.isabs] *)
Definition isabs (s : string) : bool := startswith s "/".

(** [os.path.join] of two components *)
Definition path_join (a b : string) : string :=
  if startswith b "/" then b
  else if (String.eqb a "" || endswith a "/") then a ++ b
  else a ++ "/" ++ b.

(** Whether a string has a slash in it. *)
Definition has_slash (s : string) : bool :=
  existsb (Ascii.eqb "/") (list_ascii_of_string s).

(** [p[:i]] and [p[i:]] for [i = p.rfind('/') + 1] *)
Fixpoint split_at_last_slash (p : string) : string * string :=
  match p with
  | EmptyString => (EmptyString, EmptyString)
  | String c p' =>
      if has_slash p' then
        let (head, tail) := split_at_last_slash p' in (String c head, tail)
      else if Ascii.eqb c "/" then (String c EmptyString, p')
      else (EmptyString, String c p')
  end.

(** [s.rstrip('/')] *)
Fixpoint rstrip_slash (s : string) : string :=
  match s with
  | EmptyString => EmptyString
  | String c s' =>
      let r := rstrip_slash s' in
      if String.eqb r "" && Ascii.eqb c "/" then EmptyString else String c r
  end.

(** [s == '/' * len(s)] *)
Definition all_slashes (s : string) : bool :=
  forallb (Ascii.eqb "/") (list_ascii_of_string s).

(** [os.path.split] *)
Definition posix_split (p : string) : string * string :=
  let (head, tail) := split_at_last_slash p in
  if negb (String.eqb head "") && negb (all_slashes head)
  then (rstrip_slash head, tail)
  else (head, tail).

(** [s.split('/')], with the component under construction in [cur] *)
Fixpoint split_slash_acc (s cur : string) : list string :=
  match s with
  | EmptyString => [cur]
  | String c s' =>
      if Ascii.eqb c "/" then cur :: split_slash_acc s' ""
      else split_slash_acc s' (cur ++ String c "")
  end.

Definition split_slash (s : string) : list string := split_slash_acc s "".

(** ['/'.join(comps)] *)
Definition join_slash (comps : list string) : string := String.concat "/" comps.

(** The number of leading slashes that POSIX keeps: two exactly, or one. *)
Definition initial_slashes (s : string) : nat :=
  if startswith s "/" then
    if startswith s "//" && negb (startswith s "///") then 2%nat else 1%nat
  else 0%nat.

Definition last_is_dotdot (comps : list string) : bool :=
  match rev comps with
  | c :: _ => String.eqb c ".."
  | [] => false
  end.

(** The loop of [posixpath.normpath] over the components. *)
Fixpoint normpath_loop (slashes : nat) (comps new_comps : list string)
    : list string :=
  match comps with
  | [] => new_comps
  | comp :: rest =>
      if String.eqb comp "" || String.eqb comp "." then
        normpath_loop slashes rest new_comps
      else if negb (String.eqb comp "..")
              || ((slashes =? 0)%nat && (List.length new_comps =? 0)%nat)
              || last_is_dotdot new_comps then
        normpath_loop slashes rest (new_comps ++ [comp])
      else
        normpath_loop slashes rest (removelast new_comps)
  end.

Fixpoint slashes_string (n : nat) : string :=
  match n with
  | O => ""
  | S n' => String "/" (slashes_string n')
  end.

(** [os.path.normpath] *)
Definition normpath (path : string) : string :=
  if String.eqb path "" then "." else
  let slashes := initial_slashes path in
  let comps := normpath_loop slashes (split_slash path) [] in
  let path' := (slashes_string slashes ++ join_slash comps)%string in
  if String.eqb path' "" then "." else path'.

(** [os.path.abspath], in the working directory [cwd] *)
Definition abspath (cwd path : string) : string :=
  if isabs path then normpath path else normpath (path_join cwd path).

(** A [pathlib.PurePosixPath]: the root and the parts after it. *)
Record PurePath : Type := {
  root : string;
  parts : list string
}.

Definition is_part (comp : string) : bool :=
  negb (String.eqb comp "") && negb (String.eqb comp ".").

(** [Path(s)] *)
Definition Path (s : string) : PurePath :=
  {| root := slashes_string (initial_slashes s);
     parts := filter is_part (split_slash s) |}.

(** [str(path)] *)
Definition str_of_path (p : PurePath) : string :=
  let s := (root p ++ join_slash (parts p))%string in
  if String.eqb s "" then "." else s.

(** The parts with the drive and the root in front, as [relative_to]
    compares them. *)
Definition abs_parts (p : PurePath) : list string :=
  if String.eqb (root p) "" then parts p
  else ""%string :: root p :: parts p.

Definition strings_eqb (l1 l2 : list string) : bool :=
  if list_eq_dec string_dec l1 l2 then true else false.

(** [self.relative_to(other)] *)
Definition relative_to (self other : PurePath) : result PurePath :=
  let n := List.length (abs_parts other) in
  let differs :=
    if (n =? 0)%nat then negb (String.eqb (root self) "")
    else negb (strings_eqb (firstn n (abs_parts self)) (abs_parts other)) in
  if differs then Raise ValueError
  else Ok {| root := ""; parts := skipn n (abs_parts self) |}.

(** ** Formatting numbers *)

(** [str(n)] for an integer *)
Definition str_of_int (n : Z) : string := NilZero.string_of_int (Z.to_int n).

Fixpoint zeros (n : nat) : string :=
  match n with
  | O => ""
  | S n' => String "0" (zeros n')
  end.

(** [f'{n:06d}'] for a natural number *)
Definition format_06d (n : nat) : string :=
  let s := NilZero.string_of_uint (Nat.to_uint n) in
  (zeros (6 - String.length s) ++ s)%string.

(** Reading a formatted number back. *)
Definition read_number (s : string) : option nat :=
  option_map Nat.of_uint (NilEmpty.uint_of_string s).

(** ** The directory tree and [glob] *)

(** What is below the input directory: files and directories by name. *)
#[warnings="-register-all"]
Inductive node : Type :=
| File (name : string)
| Dir (name : string) (children : list node).

Definition node_name (n : node) : string :=
  match n with
  | File name => name
  | Dir name _ => name
  end.

(** [fnmatch] on the characters, for patterns made of [*], [?] and literal
    characters. *)
Fixpoint fnmatch_chars (pat name : list ascii) {struct pat} : bool :=
  match pat with
  | [] => match name with [] => true | _ :: _ => false end
  | p :: pat' =>
      if Ascii.eqb p "*" then
        (fix star (name : list ascii) : bool :=
           fnmatch_chars pat' name
           || match name with
              | [] => false
              | _ :: name' => star name'
              end) name
      else
        match name with
        | [] => false
        | c :: name' =>
            (Ascii.eqb p "?" || Ascii.eqb p c) && fnmatch_chars pat' name'
        end
  end.

Definition fnmatch (name pat : string) : bool :=
  fnmatch_chars (list_ascii_of_string pat) (list_ascii_of_string name).

(** [glob._ishidden] *)
Definition ishidden (name : string) : bool := startswith name ".".

(** [glob._glob1]: the names of a directory that match a pattern; a pattern
    that is not hidden itself leaves the hidden names out. *)
Definition glob1 (entries : list node) (pat : string) : list string :=
  let names := map node_name entries in
  let names := if ishidden pat then names
               else filter (fun x => negb (ishidden x)) names in
  filter (fun x => fnmatch x pat) names.

(** The matches of [pat] in the directory [n] below [dirname] and in the
    directories under it, which is what the part [**] of the pattern
    selects: it does not descend into hidden directories. *)
Fixpoint glob_rec (pat dirname : string) (n : node) {struct n} : list string :=
  match n with
  | File _ => []
  | Dir name children =>
      if ishidden name then []
      else
        let path := path_join dirname name in
        map (path_join path) (glob1 children pat)
        ++ flat_map (glob_rec pat path) children
  end.

(** [glob.has_magic] *)
Definition has_magic (s : string) : bool :=
  existsb (fun c => Ascii.eqb c "*" || Ascii.eqb c "?" || Ascii.eqb c "[")
          (list_ascii_of_string s).

(** The directory the pattern [os.path.join(input_dir, '**/' + pat)] starts
    from: [glob] splits off the last component with [os.path.split], and
    then the component before it. *)
Definition glob_dirname (input_dir pat : string) : string :=
  fst (posix_split (fst (posix_split (path_join input_dir ("**/" ++ pat))))).

(** [glob.glob(os.path.join(input_dir, '**/' + pat), recursive=True)], for an
    [input_dir] without the characters that [glob] would expand ([has_magic]);
    [tree] holds the entries of the directory it names. *)
Definition glob_recursive (tree : list node) (input_dir pat : string)
    : list string :=
  let dirname := glob_dirname input_dir pat in
  map (path_join dirname) (glob1 tree pat)
  ++ flat_map (glob_rec pat dirname) tree.

(** A file name has no slash in it. *)
Definition plain_name (name : string) : bool :=
  negb (existsb (Ascii.eqb "/") (list_ascii_of_string name)).

Fixpoint well_named (n : node) : bool :=
  match n with
  | File name => plain_name name
  | Dir name children => plain_name name && forallb well_named children
  end.

(** A name with a dot in it that does not begin with a dot. *)
Definition dotted_name (name : string) : Prop :=
  ishidden name = false /\ In "."%char (list_ascii_of_string name).

(** The entries a scan lists below a directory: the files and directories
    with a dotted name, in the directory itself and in the directories
    under it that are not hidden. *)
Inductive listed : string -> list node -> string -> Prop :=
| listed_here (dirname : string) (entries : list node) (n : node) :
    In n entries ->
    dotted_name (node_name n) ->
    listed dirname entries (path_join dirname (node_name n))
| listed_below (dirname : string) (entries : list node) (name : string)
    (children : list node) (path : string) :
    In (Dir name children) entries ->
    ishidden name = false ->
    listed (path_join dirname name) children path ->
    listed dirname entries path.

(** The part of [glob_rec] on one entry, in terms of [listed]. *)
Definition glob_rec_listed (n : node) : Prop :=
  forall dirname path,
    In path (glob_rec "*.*" dirname n)
    <-> match n with
        | File _ => False
        | Dir name children =>
            ishidden name = false
            /\ listed (path_join dirname name) children path
        end.

(** [sorted] on strings *)
Module StringOrder <: TotalLeBool.

Definition t := string.

Definition leb := String.leb.

Theorem leb_total : forall a1 a2, leb a1 a2 = true \/ leb a2 a1 = true.
Proof. exact String.leb_total. Qed.

End StringOrder.

Module StringSort := Sort StringOrder.

Definition sorted (l : list string) : list string := StringSort.sort l.

Definition get_files (tree : list node) (input_dir : string) : list string :=
  let sorted_files := [] in
  let sorted_files := sorted_files ++ glob_recursive tree input_dir "*.*" in
  let sorted_files := sorted sorted_files in
  sorted_files.

(** ** Copying and logging *)

(** [shutil.copyfile(source, destination)], as the pair it is called with *)
Definition copy : Type := (string * string)%type.

(** The loop of [copy_valid_files], from index [i]: the calls of
    [shutil.copyfile] in order. *)
Fixpoint copy_loop (i : nat) (valid_files : list checked) (output_dir : string)
    : list copy :=
  match valid_files with
  | [] => []
  | elem :: rest =>
      let source := fst elem in
      let destination := path_join output_dir (format_06d (i + 1) ++ ".jpg") in
      (source, destination) :: copy_loop (S i) rest output_dir
  end.

(** The calls of [shutil.copyfile] that [copy_valid_files] makes, in order,
    as long as none of them raises. *)
Definition copy_valid_files (valid_files : list checked) (output_dir : string)
    : list copy :=
  copy_loop 0 valid_files output_dir.

(** What [shutil.copyfile] does with a call, after the copies already made
    in the run: it returns or raises. *)
Definition copier : Type := list copy -> copy -> result unit.

(** The calls carried out one after the other: the copies made, and how the
    loop ends. *)
Fixpoint perform_copies (copyfile : copier) (made calls : list copy)
    : list copy * result unit :=
  match calls with
  | [] => (made, Ok tt)
  | call :: rest =>
      match copyfile made call with
      | Ok _ => perform_copies copyfile (made ++ [call]) rest
      | Raise e => (made, Raise e)
      end
  end.

(** What the run writes to: [shutil.copyfile], and [open(logfile, 'w')],
    which returns or raises. *)
Record filesystem : Type := {
  copyfile : copier;
  open_w : string -> result unit
}.

(** A file system where every copy succeeds and the log file opens. *)
Definition copies_all : filesystem :=
  {| copyfile := fun _ _ => Ok tt; open_w := fun _ => Ok tt |}.

(** A file system without the output directory: [shutil.copyfile] raises
    [FileNotFoundError], an [OSError]. *)
Definition no_output_dir : filesystem :=
  {| copyfile := fun _ _ => Raise IOError; open_w := fun _ => Ok tt |}.

(** A file system without the directory of the log file: the copies
    succeed and [open] raises [FileNotFoundError]. *)
Definition no_log_dir : filesystem :=
  {| copyfile := fun _ _ => Ok tt; open_w := fun _ => Raise IOError |}.

(** The loop of [write_log_file]: the lines written so far, and how the loop
    ends. *)
Fixpoint log_loop (cwd : string) (invalid_files : list checked)
    (input_dir : string) (written : list string)
    : list string * result unit :=
  match invalid_files with
  | [] => (written, Ok tt)
  | file_name :: rest =>
      match relative_to (Path (fst file_name)) (Path (abspath cwd input_dir)) with
      | Raise e => (written, Raise e)
      | Ok realtive_path =>
          let line :=
            (str_of_path realtive_path ++ ";" ++ str_of_int (snd file_name)
             ++ String "010" "")%string in
          log_loop cwd rest input_dir (written ++ [line])
      end
  end.

(** What [write_log_file] writes once the log file is open, and how it
    ends; the working directory [cwd] is what [os.path.abspath] reads. *)
Definition write_log_file (cwd : string) (logfile : string)
    (invalid_files : list checked) (input_dir : string)
    : list string * result unit :=
  log_loop cwd invalid_files input_dir [].

(** ** The entry point *)

(** What a run leaves behind: the files copied, the lines of the log file
    ([None] when the log file was never opened) and the value returned or the
    exception raised. *)
Record run : Type := {
  copied : list copy;
  logged : option (list string);
  returned : result Z
}.

Definition pre_processsing (P : Pillow) (fs : filesystem) (cwd : string)
    (tree : list node) (input_dir output_dir logfile : string) : run :=
  let sorted_files := get_files tree input_dir in
  match check_files P sorted_files output_dir with
  | Raise e => {| copied := []; logged := None; returned := Raise e |}
  | Ok checked_files =>
      let '(valid_files, invalid_files) := separate_files checked_files in
      match perform_copies (copyfile fs) []
              (copy_valid_files valid_files output_dir) with
      | (copies, Raise e) =>
          {| copied := copies; logged := None; returned := Raise e |}
      | (copies, Ok _) =>
          match open_w fs logfile with
          | Raise e =>
              {| copied := copies; logged := None; returned := Raise e |}
          | Ok _ =>
              match write_log_file cwd logfile invalid_files input_dir with
              | (lines, Raise e) =>
                  {| copied := copies; logged := Some lines;
                     returned := Raise e |}
              | (lines, Ok _) =>
                  {| copied := copies; logged := Some lines;
                     returned := Ok (Z.of_nat (List.length valid_files)) |}
              end
          end
      end
  end.

(** ** A raster model of the library operations

    Images as arrays of band values, with the operations as Pillow computes
    them on such arrays.  The general theorems below do not depend on it: it
    provides the concrete runs. *)

Module Raster.

Record image : Type := {
  bands : nat;
  (** whether the band values are 8-bit, as in the modes L and RGB, and not
      wider, as in the modes I and F *)
  eightbit : bool;
  (** whether the pixel data can be decoded: they cannot when the file is
      cut short after the header *)
  intact : bool;
  width : Z;
  height : Z;
  (** the value of a band at column x, row y *)
  pixel : nat -> Z -> Z -> Z
}.

(** [range(n)] *)
Definition range (n : Z) : list Z := map Z.of_nat (seq 0 (Z.to_nat n)).

Definition coords (w h : Z) : list (Z * Z) :=
  flat_map (fun y => map (fun x => (x, y)) (range w)) (range h).

Definition band_values (im : image) (b : nat) : list Z :=
  map (fun xy => pixel im b (fst xy) (snd xy)) (coords (width im) (height im)).

(** The variance of a band as [ImageStat] has it:
    [(sum2 - sum**2 / count) / count]. *)
Definition variance (vals : list Z) : Q :=
  let n := Z.of_nat (List.length vals) in
  let s := fold_left Z.add vals 0 in
  let s2 := fold_left (fun acc v => acc + v * v) vals 0 in
  Qmake (n * s2 - s * s) (Z.to_pos (n * n)).

Definition differs (a b : image) (xy : Z * Z) : bool :=
  existsb (fun k => negb (pixel a k (fst xy) (snd xy) =? pixel b k (fst xy) (snd xy)))
          (seq 0 (bands a)).

Definition minimum (l : list Z) (d : Z) : Z := fold_left Z.min l d.
Definition maximum (l : list Z) (d : Z) : Z := fold_left Z.max l d.

(** [ImageChops.difference] loads the two images, which raises [OSError]
    when the pixel data of one cannot be decoded; it refuses with
    [ValueError] images that are not 8-bit and images whose bands do not
    match; otherwise it works on the region the two images have in common,
    and [getbbox] bounds its non-zero values. *)
Definition chop_difference (a b : image) : result (option bbox) :=
  if negb (intact a) || negb (intact b) then Raise IOError
  else if negb (eightbit a) then Raise ValueError
  else if negb (Bool.eqb (eightbit a) (eightbit b))
          || negb (bands a =? bands b)%nat then Raise ValueError
  else
    let w := Z.min (width a) (width b) in
    let h := Z.min (height a) (height b) in
    match filter (differs a b) (coords w h) with
    | [] => Ok None
    | (x, y) :: rest =>
        let xs := map fst rest in
        let ys := map snd rest in
        Ok (Some (minimum xs x, minimum ys y,
                  maximum xs x + 1, maximum ys y + 1))
    end.

(** A file on disk: its size in bytes and what [Image.open] makes of it. *)
Record file : Type := {
  size : Z;
  content : result image
}.

Definition disk : Type := list (string * file).

Fixpoint lookup (d : disk) (path : string) : option file :=
  match d with
  | [] => None
  | (p, f) :: d' => if String.eqb p path then Some f else lookup d' path
  end.

Definition pillow (d : disk) : Pillow :=
  {| Image := image;
     Image_open := fun path =>
       match lookup d path with
       | Some f => content f
       | None => Raise IOError
       end;
     getsize := fun path =>
       match lookup d path with
       | Some f => size f
       | None => 0
       end;
     stat_var := fun im =>
       if intact im
       then Ok (map (fun b => variance (band_values im b)) (seq 0 (bands im)))
       else Raise IOError;
     im_size := fun im => (width im, height im);
     array_shape := fun im =>
       if (bands im =? 1)%nat then [height im; width im]
       else [height im; width im; Z.of_nat (bands im)];
     difference_getbbox := chop_difference |}.

(** A grey ramp of the given size, and a flat grey image. *)
Definition ramp (w h : Z) : image :=
  {| bands := 1; eightbit := true; intact := true; width := w; height := h;
     pixel := fun _ x y => (x + y) mod 256 |}.

Definition flat (w h : Z) : image :=
  {| bands := 1; eightbit := true; intact := true; width := w; height := h;
     pixel := fun _ _ _ => 128 |}.

(** A ramp with one pixel changed. *)
Definition dotted (w h : Z) : image :=
  {| bands := 1; eightbit := true; intact := true; width := w; height := h;
     pixel := fun _ x y => if (x =? 3) && (y =? 5) then 255
                           else (x + y) mod 256 |}.

(** A ramp in three bands, and one with values wider than 8 bits. *)
Definition colour (w h : Z) : image :=
  {| bands := 3; eightbit := true; intact := true; width := w; height := h;
     pixel := fun k x y => (x + y + Z.of_nat k) mod 256 |}.

Definition deep (w h : Z) : image :=
  {| bands := 1; eightbit := false; intact := true; width := w; height := h;
     pixel := fun _ x y => x + 300 * y |}.

(** An image of which only the header can be read. *)
Definition cut (im : image) : image :=
  {| bands := bands im; eightbit := eightbit im; intact := false;
     width := width im; height := height im; pixel := pixel im |}.

End Raster.

(** ** The comparison pool and the rules *)

Section Pool.

Context (P : Pillow).

(** The guard of the comparison loop: the entries whose code is neither 3
    nor 1 are the ones the loop opens and compares. *)
Definition in_pool (image : checked) : bool :=
  negb (snd image =? 3) && negb (snd image =? 1).

Definition pool (checked_files : list checked) : list checked :=
  filter in_pool checked_files.

(** The entries with code 0. *)
Definition accepted (checked_files : list checked) : list checked :=
  filter (fun image => snd image =? 0) checked_files.

(** Whether the comparison with a checked entry finds no difference. *)
Definition same_as (im1 : Image P) (image : checked) : bool :=
  match Image_open P (fst image) with
  | Ok im2 =>
      match is_equal P im1 im2 with
      | Ok res => is_None res
      | Raise _ => false
      end
  | Raise _ => false
  end.

(** Whether the comparison with a checked entry returns: the entry is
    outside the pool, or it opens and [is_equal] returns. *)
Definition compares (im1 : Image P) (image : checked) : bool :=
  implb (in_pool image)
    match Image_open P (fst image) with
    | Ok im2 =>
        match is_equal P im1 im2 with
        | Ok _ => true
        | Raise _ => false
        end
    | Raise _ => false
    end.

Definition comparable (im1 : Image P) (checked_files : list checked) : Prop :=
  forallb (compares im1) checked_files = true.

(** The first five rules, as the conditions of [validate_file] state them. *)
Definition passes_five (file_path : string) (im : Image P) : Prop :=
  Image_open P file_path = Ok im
  /\ endswith_any (lower file_path) allowed_extensions = true
  /\ getsize P file_path > 10000
  /\ (exists variance,
        stat_var P im = Ok variance /\ (0 < py_sum variance)%Q)
  /\ fst (im_size P im) >= 100
  /\ snd (im_size P im) >= 100
  /\ (List.length (array_shape P im) <= 2)%nat.

(** The rules in the order of the script: the code of each rule and whether
    the file passes it.  The first is that [Image.open] does not raise
    [IOError]; a rule that needs the image, or its pixel data, passes when
    there is none. *)
Definition rules (file_path : string) (checked_files : list checked)
    : list (Z * bool) :=
  let opened := Image_open P file_path in
  let on_image (check : Image P -> bool) : bool :=
    match opened with
    | Ok im => check im
    | Raise _ => true
    end in
  [ (3, match opened with Raise IOError => false | _ => true end);
    (1, endswith_any (lower file_path) allowed_extensions);
    (2, 10000 <? getsize P file_path);
    (4, on_image (fun im =>
                    match stat_var P im with
                    | Ok variance => negb (Qle_bool (py_sum variance) (0 # 1))
                    | Raise _ => true
                    end));
    (5, on_image (fun im => (100 <=? fst (im_size P im))
                            && (100 <=? snd (im_size P im))
                            && (List.length (array_shape P im) <=? 2)%nat));
    (6, on_image (fun im => negb (existsb (same_as im) (pool checked_files)))) ].

(** The code of the first rule that fails, 0 when none does. *)
Fixpoint first_failure (rs : list (Z * bool)) : Z :=
  match rs with
  | [] => 0
  | (code, passes) :: rest => if passes then first_failure rest else code
  end.

(** Whether an exception is one the script catches where it is raised. *)
Definition is_IOError (e : exn) : bool :=
  match e with
  | IOError => true
  | _ => false
  end.

Definition is_ValueError (e : exn) : bool :=
  match e with
  | ValueError => true
  | _ => false
  end.

(** The files of a list give the validator nothing it does not catch: each
    one fails to open with [IOError], or opens to an image whose variances
    are computed and whose difference with every image of the list is
    computed or refused with [ValueError]. *)
Definition tame (files : list string) : bool :=
  forallb
    (fun f =>
       match Image_open P f with
       | Raise e => is_IOError e
       | Ok im =>
           match stat_var P im with
           | Ok _ =>
               forallb
                 (fun g =>
                    match Image_open P g with
                    | Ok im2 =>
                        match difference_getbbox P im im2 with
                        | Ok _ => true
                        | Raise e => is_ValueError e
                        end
                    | Raise _ => true
                    end) files
           | Raise _ => false
           end
       end) files.

End Pool.

(** ** Concrete files and directories *)

Module Examples.

Import Raster.

Definition jpg (bytes : Z) (im : image) : file :=
  {| size := bytes; content := Ok im |}.

(** A small file, then a large one with the same pixels. *)
Definition small_then_large : disk :=
  [ ("in/a.jpg", jpg 5000 (ramp 100 100));
    ("in/b.jpg", jpg 20000 (ramp 100 100)) ]%string.


(** The same image with wide values twice. *)
Definition deep_twins : disk :=
  [ ("in/a.jpg", jpg 20000 (deep 100 100));
    ("in/b.jpg", jpg 20000 (deep 100 100)) ]%string.

(** The same 8-bit image twice. *)
Definition twins : disk :=
  [ ("in/a.jpg", jpg 20000 (ramp 100 100));
    ("in/b.jpg", jpg 20000 (ramp 100 100)) ]%string.

(** One file for every code. *)
Definition mixed : disk :=
  [ ("in/a.jpg", jpg 20000 (ramp 100 100));
    ("in/b.txt", jpg 20000 (ramp 100 100));
    ("in/c.jpg", jpg 10000 (ramp 100 100));
    ("in/d.jpg", {| size := 20000; content := Raise IOError |});
    ("in/e.jpg", jpg 20000 (flat 100 100));
    ("in/f.JPG", jpg 20000 (ramp 50 200));
    ("in/g.jpeg", jpg 20000 (colour 100 100));
    ("in/h.jpg", jpg 20000 (deep 100 100));
    ("in/i.jpg", jpg 30000 (ramp 100 100));
    ("in/j.txt", {| size := 20000; content := Raise IOError |}) ]%string.

(** A directory with a file without a dot, a hidden file, a directory with
    a dot in its name and a hidden directory. *)
Definition tree : list node :=
  [ File "b.jpg"; File "README"; File ".hidden.jpg";
    Dir "sub.d" [File "a.JPG"; File "x"];
    Dir ".git" [File "c.jpg"];
    Dir "z" [Dir "y" [File "q.png"]] ].

(** The files of [tree] below the relative directory [in]. *)
Definition tree_disk : disk :=
  [ ("in/b.jpg", jpg 20000 (ramp 100 100));
    ("in/sub.d/a.JPG", jpg 20000 (dotted 100 100));
    ("in/z/y/q.png", jpg 20000 (ramp 100 100)) ]%string.

(** The same below the absolute directory [/data/in]. *)
Definition tree_disk_abs : disk :=
  [ ("/data/in/b.jpg", jpg 20000 (ramp 100 100));
    ("/data/in/sub.d/a.JPG", jpg 20000 (dotted 100 100));
    ("/data/in/z/y/q.png", jpg 20000 (ramp 100 100)) ]%string.

End Examples.

(** ** The same directory listed in another order *)

(** Two lists of entries that differ only by the order in which the
    directories, at any depth, list their entries. *)
Inductive reordered : list node -> list node -> Prop :=
| reordered_nil : reordered [] []
| reordered_file (name : string) (l l' : list node) :
    reordered l l' -> reordered (File name :: l) (File name :: l')
| reordered_dir (name : string) (children children' l l' : list node) :
    reordered children children' ->
    reordered l l' ->
    reordered (Dir name children :: l) (Dir name children' :: l')
| reordered_swap (x y : node) (l l' : list node) :
    reordered l l' -> reordered (y :: x :: l) (x :: y :: l')
| reordered_trans (l l' l'' : list node) :
    reordered l l' -> reordered l' l'' -> reordered l l''.

(** What one entry of a directory adds to the matches of a pattern: its
    own name when it matches, and the matches below it. *)
Definition entry_matches (pat dirname : string) (n : node) : list string :=
  map (path_join dirname) (glob1 [n] pat) ++ glob_rec pat dirname n.

(** ** Paths below a directory *)

(** A path below a directory: the same root, and the parts of the
    directory first. *)
Definition below (dirname path : string) : Prop :=
  exists extra,
    Path path = {| root := root (Path dirname);
                   parts := parts (Path dirname) ++ extra |}.

(** ** The lines of the log *)

(** The line [write_log_file] writes for a rejected entry whose path is
    below the absolute input directory. *)
Definition logged_as (cwd input_dir : string) (file_name : checked)
    (line : string) : Prop :=
  exists realtive_path,
    relative_to (Path (fst file_name)) (Path (abspath cwd input_dir))
    = Ok realtive_path
    /\ line = (str_of_path realtive_path ++ ";" ++ str_of_int (snd file_name)
               ++ String "010" "")%string.

(** ** More files and directories *)

Module Scenes.

Import Raster.

(** A directory whose scanned files are all accepted. *)
Definition clean_tree : list node :=
  [ File "b.jpg"; File "README"; Dir "sub" [File "a.JPG"] ].

Definition clean_disk : disk :=
  [ ("in/b.jpg", Examples.jpg 20000 (ramp 100 100));
    ("in/sub/a.JPG", Examples.jpg 20000 (dotted 100 100)) ]%string.

(** Rejected entries of which only the first lies below [/data/in]. *)
Definition stray_entries : list checked :=
  [ ("/data/in/a.txt", 1); ("elsewhere/b.txt", 1); ("/data/in/c.txt", 3) ]%string.

(** A whole file and two files cut short after the header, one with a wrong
    extension and one with a right one; and a small file cut short before a
    whole one. *)
Definition cut_files : disk :=
  [ ("in/a.jpg", Examples.jpg 20000 (ramp 100 100));
    ("in/t.txt", Examples.jpg 20000 (cut (ramp 100 100)));
    ("in/u.jpg", Examples.jpg 20000 (cut (ramp 100 100))) ]%string.


(** A small file, then two large ones, all with the same pixels. *)
Definition triplets : disk :=
  [ ("in/0.jpg", Examples.jpg 5000 (ramp 100 100));
    ("in/a.jpg", Examples.jpg 20000 (ramp 100 100));
    ("in/b.jpg", Examples.jpg 20000 (ramp 100 100)) ]%string.

(** The entries of a directory in two orders. *)
Definition listing : list node :=
  [ File "b.jpg"; Dir "sub.d" [File "a.JPG"]; File "a.png" ].

Definition listing_shuffled : list node :=
  [ File "a.png"; File "b.jpg"; Dir "sub.d" [File "a.JPG"] ].

End Scenes.

(** * Facts about the validator *)

Section ValidatorFacts.

Context (P : Pillow).

Lemma compare_loop_pool (im1 : Image P) (l : list checked) (n : Z) :
  compare_loop P im1 l n = compare_loop P im1 (pool l) n.
Proof.
  induction l as [|e l IH]; [reflexivity|].
  unfold pool in *; cbn [filter compare_loop]; fold (in_pool e).
  destruct (in_pool e) eqn:He.
  - cbn [compare_loop]. fold (in_pool e). rewrite He.
    destruct (Image_open P (fst e)) as [im2|]; cbn [bind]; [|reflexivity].
    destruct (is_equal P im1 im2) as [res|]; cbn [bind]; [|reflexivity].
    destruct (is_None res); [reflexivity|exact IH].
  - exact IH.
Qed.

(** What the loop returns when it returns. *)
Lemma compare_loop_Ok (im1 : Image P) (l : list checked) (n c : Z) :
  compare_loop P im1 l n = Ok c ->
  c = if existsb (same_as P im1) (pool l) then 6 else n.
Proof.
  induction l as [|e l IH]; cbn [compare_loop pool filter existsb].
  - intros [= <-]; reflexivity.
  - fold (in_pool e). fold (pool l).
    destruct (in_pool e) eqn:He; [|exact IH].
    cbn [existsb]. unfold same_as at 1.
    destruct (Image_open P (fst e)) as [im2|]; cbn [bind]; [|discriminate].
    destruct (is_equal P im1 im2) as [res|]; cbn [bind]; [|discriminate].
    destruct (is_None res); cbn [orb].
    + intros [= <-]; reflexivity.
    + exact IH.
Qed.

(** The loop returns when every comparison it can reach returns. *)
Lemma compare_loop_total (im1 : Image P) (l : list checked) (n : Z) :
  comparable P im1 l ->
  compare_loop P im1 l n = Ok (if existsb (same_as P im1) (pool l) then 6 else n).
Proof.
  intros Hop.
  assert (exists c, compare_loop P im1 l n = Ok c) as [c Hc].
  { unfold comparable in Hop.
    induction l as [|e l IH]; cbn [compare_loop]; [eauto|].
    cbn [forallb] in Hop. apply andb_true_iff in Hop as [He Hl].
    fold (in_pool e). unfold compares in He.
    destruct (in_pool e) eqn:Hin; [|exact (IH Hl)]. cbn [implb] in He.
    destruct (Image_open P (fst e)) as [im2|]; cbn [bind]; [|discriminate].
    destruct (is_equal P im1 im2) as [res|]; cbn [bind]; [|discriminate].
    destruct (is_None res); [eauto|exact (IH Hl)]. }
  rewrite Hc. f_equal. eapply compare_loop_Ok; eassumption.
Qed.

Lemma Qle_bool_positive (q : Q) : (0 < q)%Q -> Qle_bool q (0 # 1) = false.
Proof.
  intros Hq. apply not_true_is_false. intros H.
  apply Qle_bool_iff in H. exact (Qlt_not_le _ _ Hq H).
Qed.

Lemma passes_five_validate (file_path output_dir : string) (im : Image P)
    (l : list checked) :
  passes_five P file_path im ->
  validate_file P file_path output_dir l = compare_loop P im l 0.
Proof.
  intros (Hopen & Hext & Hsize & (v & Hstat & Hvar) & Hw & Hh & Hshape).
  unfold validate_file. rewrite Hopen, Hext. cbn [negb bind].
  replace (getsize P file_path >? 10000) with true
    by (symmetry; apply Z.gtb_lt; lia).
  cbn [negb]. rewrite Hstat. cbn [bind].
  rewrite (Qle_bool_positive _ Hvar).
  cbn [negb]. destruct (im_size P im) as [w h]; cbn [fst snd] in Hw, Hh.
  replace (w >=? 100) with true by (symmetry; apply Z.geb_le; lia).
  replace (h >=? 100) with true by (symmetry; apply Z.geb_le; lia).
  replace (2 <? Z.of_nat (List.length (array_shape P im))) with false
    by (symmetry; apply Z.ltb_ge; lia).
  reflexivity.
Qed.

(** The codes [validate_file] can return, and what they say about the file. *)
Lemma validate_file_Ok (file_path output_dir : string) (l : list checked) (c : Z) :
  validate_file P file_path output_dir l = Ok c ->
  0 <= c <= 6 /\ (c <> 3 -> exists im, Image_open P file_path = Ok im).
Proof.
  unfold validate_file.
  destruct (Image_open P file_path) as [im|[| |name]];
    [|intros [= <-]; split; [lia|congruence]|discriminate|discriminate].
  intros H. split; [|eauto].
  destruct (negb (endswith_any _ _)); [injection H as <-; lia|].
  destruct (negb (getsize P file_path >? 10000)); [injection H as <-; lia|].
  cbn [bind] in H.
  destruct (stat_var P im) as [v|]; cbn [bind] in H; [|discriminate].
  destruct (negb (negb (Qle_bool _ _))); [injection H as <-; lia|].
  destruct (im_size P im) as [w h].
  destruct (negb _ || _); [injection H as <-; lia|].
  apply compare_loop_Ok in H. destruct (existsb _ _); lia.
Qed.

(** The loop of [check_files] only appends: one entry per file, in order. *)
Lemma check_loop_Ok (files : list string) (output_dir : string) :
  forall chk res,
    check_loop P files output_dir chk = Ok res ->
    exists new, res = chk ++ new /\ map fst new = files
                /\ Forall (fun e => 0 <= snd e <= 6) new.
Proof.
  induction files as [|f files IH]; intros chk res; cbn [check_loop].
  - intros [= <-]. exists []. rewrite app_nil_r. auto.
  - destruct (validate_file P f output_dir chk) as [c|] eqn:Hv;
      cbn [bind]; [|discriminate].
    intros H. apply IH in H as (new & -> & Hfst & Hcodes).
    exists ((f, c) :: new). rewrite <- app_assoc. cbn. repeat split.
    + now rewrite Hfst.
    + constructor; [|assumption]. cbn. eapply validate_file_Ok; eassumption.
Qed.

Lemma check_loop_app (l1 l2 : list string) (output_dir : string) :
  forall chk,
    check_loop P (l1 ++ l2) output_dir chk =
    (r <- check_loop P l1 output_dir chk ;; check_loop P l2 output_dir r).
Proof.
  induction l1 as [|f l1 IH]; intros chk; cbn [app check_loop bind]; [reflexivity|].
  destruct (validate_file P f output_dir chk); cbn [bind]; [apply IH|reflexivity].
Qed.

(** What a run that returns says of its files: one entry each, in order,
    with a code from 0 to 6. *)
Lemma check_files_Ok (files : list string) (output_dir : string)
    (res : list checked) :
  check_files P files output_dir = Ok res ->
  map fst res = files /\ Forall (fun e => 0 <= snd e <= 6) res.
Proof.
  intros H. apply check_loop_Ok in H as (new & -> & Hfst & Hcodes). auto.
Qed.

(** A run over [pre ++ f :: post] that returns classifies [f] against the
    entries of [pre], and nothing else. *)
Lemma check_files_split (pre post : list string) (f output_dir : string)
    (res : list checked) :
  check_files P (pre ++ f :: post) output_dir = Ok res ->
  exists before c after,
    res = before ++ (f, c) :: after
    /\ check_files P pre output_dir = Ok before
    /\ map fst before = pre
    /\ map fst after = post
    /\ validate_file P f output_dir before = Ok c.
Proof.
  unfold check_files. rewrite check_loop_app.
  destruct (check_loop P pre output_dir []) as [before|] eqn:Hb; cbn [bind];
    [|discriminate].
  pose proof (check_files_Ok pre output_dir before Hb) as [Hfst _].
  cbn [check_loop].
  destruct (validate_file P f output_dir before) as [c|] eqn:Hv; cbn [bind];
    [|discriminate].
  intros H. apply check_loop_Ok in H as (after & -> & Hafter & _).
  exists before, c, after. rewrite <- app_assoc. cbn. auto 10.
Qed.

(** What [tame] says of one file of the list. *)
Lemma tame_In (files : list string) (f : string) :
  tame P files = true -> In f files ->
  match Image_open P f with
  | Raise e => e = IOError
  | Ok im =>
      (exists v, stat_var P im = Ok v)
      /\ forall g im2,
           In g files -> Image_open P g = Ok im2 ->
           exists res, is_equal P im im2 = Ok res
  end.
Proof.
  unfold tame. rewrite forallb_forall. intros Hall Hin.
  specialize (Hall f Hin).
  destruct (Image_open P f) as [im|e]; [|now destruct e].
  destruct (stat_var P im) as [v|]; [|discriminate].
  split; [eauto|]. intros g im2 Hg Hopen.
  rewrite forallb_forall in Hall. specialize (Hall g Hg).
  rewrite Hopen in Hall. unfold is_equal.
  destruct (difference_getbbox P im im2) as [[b|]|[| |name]];
    try discriminate; eauto.
Qed.

(** The validator returns on tame files. *)
Lemma validate_file_tame (files : list string) (f output_dir : string)
    (chk : list checked) :
  tame P files = true -> In f files ->
  (forall g c, In (g, c) chk ->
     In g files /\ (c <> 3 -> exists im, Image_open P g = Ok im)) ->
  exists c, validate_file P f output_dir chk = Ok c.
Proof.
  intros Htame Hf Hchk. pose proof (tame_In files f Htame Hf) as Hone.
  unfold validate_file.
  destruct (Image_open P f) as [im|e]; [|subst e; eauto].
  destruct Hone as [[v Hv] Hdiff].
  destruct (negb (endswith_any _ _)); [eauto|].
  destruct (negb (getsize P f >? 10000)); [eauto|].
  cbn [bind]. rewrite Hv. cbn [bind].
  destruct (negb (negb (Qle_bool _ _))); [eauto|].
  destruct (im_size P im) as [w h].
  destruct (negb _ || _); [eauto|].
  rewrite compare_loop_total; [eauto|].
  unfold comparable. apply forallb_forall. intros [g c] Hin.
  unfold compares. destruct (in_pool (g, c)) eqn:Hpool; [|reflexivity].
  cbn [implb fst]. destruct (Hchk g c Hin) as [Hg Hopen].
  destruct Hopen as [im2 Hopen].
  { unfold in_pool in Hpool. cbn [snd] in Hpool. intros ->. discriminate. }
  rewrite Hopen. destruct (Hdiff g im2 Hg Hopen) as [res ->]. reflexivity.
Qed.

Lemma check_loop_tame (files : list string) (output_dir : string) :
  forall rest chk,
    tame P files = true -> incl rest files ->
    (forall g c, In (g, c) chk ->
       In g files /\ (c <> 3 -> exists im, Image_open P g = Ok im)) ->
    exists res, check_loop P rest output_dir chk = Ok res.
Proof.
  induction rest as [|f rest IH]; intros chk Htame Hincl Hchk;
    cbn [check_loop]; [eauto|].
  assert (In f files) as Hf by (apply Hincl; now left).
  destruct (validate_file_tame files f output_dir chk Htame Hf Hchk) as [c Hc].
  rewrite Hc. cbn [bind]. apply IH; try assumption.
  - intros g Hg. apply Hincl. now right.
  - intros g c' Hin. apply in_app_or in Hin as [Hin|[[= <- <-]|[]]]; [auto|].
    split; [assumption|]. eapply validate_file_Ok; eassumption.
Qed.

End ValidatorFacts.

(** * The order of the rules *)

(** C3 (as the code has it): when [validate_file] returns, it returns the
    code of the first rule that fails, the rules taken in the order opening
    (3), extension (1), file size (2), variance (4), dimensions and shape
    (5), duplicate (6), and 0 when none fails.  The first rule is that
    [Image.open] does not raise [IOError]: a file that does not open gets 3
    whatever its extension, and a file that opens gets 1 for a wrong
    extension whether or not its pixel data can be decoded.  The validator
    returns when the variances are computed and the comparisons return. *)
Theorem validate_file_first_failure (P : Pillow) (file_path output_dir : string)
    (checked_files : list checked) :
  (forall c,
     validate_file P file_path output_dir checked_files = Ok c ->
     c = first_failure (rules P file_path checked_files))
  /\ (Image_open P file_path = Raise IOError ->
      validate_file P file_path output_dir checked_files = Ok 3)
  /\ (forall im,
        Image_open P file_path = Ok im ->
        endswith_any (lower file_path) allowed_extensions = false ->
        validate_file P file_path output_dir checked_files = Ok 1)
  /\ (forall im variance,
        Image_open P file_path = Ok im ->
        stat_var P im = Ok variance ->
        comparable P im checked_files ->
        validate_file P file_path output_dir checked_files
        = Ok (first_failure (rules P file_path checked_files))).
Proof.
  assert (forall c,
            validate_file P file_path output_dir checked_files = Ok c ->
            c = first_failure (rules P file_path checked_files)) as Hret.
  { intros c. unfold validate_file, rules.
    destruct (Image_open P file_path) as [im|[| |name]];
      cbn [first_failure]; [|congruence|discriminate|discriminate].
    destruct (endswith_any _ _); cbn [negb]; [|congruence].
    rewrite Z.gtb_ltb.
    destruct (10000 <? getsize P file_path); cbn [negb bind]; [|congruence].
    destruct (stat_var P im) as [v|]; cbn [bind]; [|discriminate].
    destruct (Qle_bool _ _); cbn [negb]; [congruence|].
    destruct (im_size P im) as [w h]; cbn [fst snd].
    rewrite !Z.geb_leb.
    assert ((2 <? Z.of_nat (List.length (array_shape P im)))
            = negb (List.length (array_shape P im) <=? 2)%nat) as ->.
    { destruct (Nat.leb_spec (List.length (array_shape P im)) 2);
        cbn [negb]; [apply Z.ltb_ge|apply Z.ltb_lt]; lia. }
    destruct (100 <=? w), (100 <=? h), (_ <=? 2)%nat; cbn; try congruence.
    intros H. apply compare_loop_Ok in H. now destruct (existsb _ _). }
  split; [exact Hret|]. split; [|split].
  - intros Hopen. unfold validate_file. now rewrite Hopen.
  - intros im Hopen Hext. unfold validate_file. now rewrite Hopen, Hext.
  - intros im v Hopen Hstat Hcmp.
    assert (exists c, validate_file P file_path output_dir checked_files = Ok c)
      as [c Hc].
    { unfold validate_file. rewrite Hopen.
      destruct (negb (endswith_any _ _)); [eauto|].
      destruct (negb (getsize P file_path >? 10000)); [eauto|].
      cbn [bind]. rewrite Hstat. cbn [bind].
      destruct (negb (negb (Qle_bool _ _))); [eauto|].
      destruct (im_size P im) as [w h].
      destruct (negb _ || _); [eauto|].
      rewrite compare_loop_total by assumption. eauto. }
    rewrite Hc. f_equal. now apply Hret.
Qed.

Lemma validate_file_first_failure_witness :
  validate_file (Raster.pillow Examples.mixed) "in/i.jpg" "out"
    [("in/a.jpg"%string, 0)] = Ok 6
  /\ Image_open (Raster.pillow Examples.mixed) "in/j.txt" = Raise IOError
  /\ validate_file (Raster.pillow Examples.mixed) "in/j.txt" "out" [] = Ok 3
  /\ Image_open (Raster.pillow Examples.mixed) "in/b.txt"
     = Ok (Raster.ramp 100 100)
  /\ endswith_any (lower "in/b.txt") allowed_extensions = false
  /\ validate_file (Raster.pillow Examples.mixed) "in/b.txt" "out" [] = Ok 1.
Proof.
  destruct (validate_file_first_failure (Raster.pillow Examples.mixed)
              "in/i.jpg" "out" [("in/a.jpg"%string, 0)])
    as (_ & _ & _ & Htotal).
  destruct (validate_file_first_failure (Raster.pillow Examples.mixed)
              "in/j.txt" "out" []) as (_ & Hthree & _ & _).
  destruct (validate_file_first_failure (Raster.pillow Examples.mixed)
              "in/b.txt" "out" []) as (_ & _ & Hone & _).
  split.
  - rewrite (Htotal (Raster.ramp 100 100)
               (map (fun b => Raster.variance
                                (Raster.band_values (Raster.ramp 100 100) b))
                    (seq 0 1)) eq_refl eq_refl);
      vm_compute; reflexivity.
  - split; [reflexivity|]. split; [apply Hthree; reflexivity|].
    split; [reflexivity|]. split; [reflexivity|].
    apply (Hone (Raster.ramp 100 100)); reflexivity.
Defined.

(** A file whose pixel data cannot be decoded, with a wrong extension, gets
    code 1 and not 3: opening it succeeds, and the extension is looked at
    before anything is decoded.  The same file with an allowed extension
    gets no code: the validator raises when the variances are computed. *)
Lemma undecodable_wrong_extension_counterexample :
  Image_open (Raster.pillow Scenes.cut_files) "in/t.txt"
  = Ok (Raster.cut (Raster.ramp 100 100))
  /\ stat_var (Raster.pillow Scenes.cut_files) (Raster.cut (Raster.ramp 100 100))
     = Raise IOError
  /\ endswith_any (lower "in/t.txt") allowed_extensions = false
  /\ validate_file (Raster.pillow Scenes.cut_files) "in/t.txt" "out" [] = Ok 1
  /\ Raster.lookup Scenes.cut_files "in/u.jpg"
     = Raster.lookup Scenes.cut_files "in/t.txt"
  /\ validate_file (Raster.pillow Scenes.cut_files) "in/u.jpg" "out" []
     = Raise IOError.
Proof. repeat split; vm_compute; reflexivity. Qed.

(** * The file size rule *)

(** C6: for a file that decodes and has an allowed extension, the code is 2
    exactly when its size is at most 10000 bytes, whatever its pixels are:
    only a size above 10000 passes, and 10000 itself does not. *)
Theorem validate_file_size (P : Pillow) (file_path output_dir : string)
    (checked_files : list checked) (im : Image P) :
  Image_open P file_path = Ok im ->
  endswith_any (lower file_path) allowed_extensions = true ->
  (validate_file P file_path output_dir checked_files = Ok 2
   <-> getsize P file_path <= 10000).
Proof.
  intros Hopen Hext. unfold validate_file.
  rewrite Hopen, Hext. cbn [negb].
  destruct (Z.gtb_spec (getsize P file_path) 10000) as [Hgt|Hle]; cbn [negb bind].
  - split; [|lia]. intros H. exfalso.
    destruct (stat_var P im) as [v|]; cbn [bind] in H; [|discriminate].
    destruct (negb (negb (Qle_bool _ _))); [discriminate|].
    destruct (im_size P im) as [w h].
    destruct (negb _ || _); [discriminate|].
    apply compare_loop_Ok in H. destruct (existsb _ _); discriminate.
  - split; [lia|reflexivity].
Qed.

Lemma validate_file_size_witness :
  Image_open (Raster.pillow Examples.mixed) "in/c.jpg"
  = Ok (Raster.ramp 100 100)
  /\ endswith_any (lower "in/c.jpg") allowed_extensions = true
  /\ getsize (Raster.pillow Examples.mixed) "in/c.jpg" = 10000
  /\ validate_file (Raster.pillow Examples.mixed) "in/c.jpg" "out" [] = Ok 2.
Proof.
  repeat (split; [reflexivity|]).
  apply (validate_file_size (Raster.pillow Examples.mixed) "in/c.jpg" "out" []
           (Raster.ramp 100 100)); [reflexivity|reflexivity|].
  cbn. lia.
Defined.

(** * The dimensions and shape rule *)

(** C7: for a file that passes the first four rules, the code is 5 exactly
    when the width is below 100, or the height is below 100, or the pixel
    array has more than two dimensions; so an image of 50 by 200 gets 5. *)
Theorem validate_file_dims (P : Pillow) (file_path output_dir : string)
    (checked_files : list checked) (im : Image P) (variance : list Q) :
  Image_open P file_path = Ok im ->
  endswith_any (lower file_path) allowed_extensions = true ->
  getsize P file_path > 10000 ->
  stat_var P im = Ok variance ->
  (0 < py_sum variance)%Q ->
  (validate_file P file_path output_dir checked_files = Ok 5
   <-> fst (im_size P im) < 100 \/ snd (im_size P im) < 100
       \/ (2 < List.length (array_shape P im))%nat)
  /\ (im_size P im = (50, 200) ->
      validate_file P file_path output_dir checked_files = Ok 5).
Proof.
  intros Hopen Hext Hsize Hstat Hvar.
  assert (validate_file P file_path output_dir checked_files = Ok 5
          <-> fst (im_size P im) < 100 \/ snd (im_size P im) < 100
              \/ (2 < List.length (array_shape P im))%nat) as Hiff.
  { destruct (Z.ltb_spec (fst (im_size P im)) 100) as [Hw|Hw];
      [|destruct (Z.ltb_spec (snd (im_size P im)) 100) as [Hh|Hh];
        [|destruct (Nat.ltb_spec 2 (List.length (array_shape P im))) as [Hs|Hs]]].
    4:{ rewrite (passes_five_validate P file_path output_dir im checked_files)
          by (repeat split; first [assumption|lia|eauto]).
        split; [|lia]. intros H. apply compare_loop_Ok in H.
        destruct (existsb _ _); discriminate. }
    all: split; [tauto|intros _].
    all: unfold validate_file; rewrite Hopen, Hext; cbn [negb bind].
    all: replace (getsize P file_path >? 10000) with true
           by (symmetry; apply Z.gtb_lt; lia); cbn [negb].
    all: rewrite Hstat; cbn [bind]; rewrite (Qle_bool_positive _ Hvar).
    all: cbn [negb]; destruct (im_size P im) as [w h]; cbn [fst snd] in *.
    - replace (w >=? 100) with false by (symmetry; rewrite Z.geb_leb; apply Z.leb_gt; lia).
      reflexivity.
    - replace (h >=? 100) with false by (symmetry; rewrite Z.geb_leb; apply Z.leb_gt; lia).
      now rewrite andb_false_r.
    - replace (2 <? Z.of_nat (List.length (array_shape P im))) with true
        by (symmetry; apply Z.ltb_lt; lia).
      now rewrite orb_true_r. }
  split; [exact Hiff|].
  intros H50. apply Hiff. rewrite H50. cbn. lia.
Qed.

Lemma validate_file_dims_witness :
  Image_open (Raster.pillow Examples.mixed) "in/f.JPG" = Ok (Raster.ramp 50 200)
  /\ endswith_any (lower "in/f.JPG") allowed_extensions = true
  /\ getsize (Raster.pillow Examples.mixed) "in/f.JPG" > 10000
  /\ (exists variance,
        stat_var (Raster.pillow Examples.mixed) (Raster.ramp 50 200)
        = Ok variance /\ (0 < py_sum variance)%Q)
  /\ validate_file (Raster.pillow Examples.mixed) "in/f.JPG" "out" [] = Ok 5.
Proof.
  assert (0 < py_sum (map (fun b => Raster.variance
                                      (Raster.band_values (Raster.ramp 50 200) b))
                          (seq 0 1)))%Q as Hvar
    by (vm_compute; reflexivity).
  split; [reflexivity|]. split; [reflexivity|]. split; [reflexivity|].
  split; [eexists; split; [reflexivity|exact Hvar]|].
  exact (proj2 (validate_file_dims (Raster.pillow Examples.mixed) "in/f.JPG"
                  "out" [] (Raster.ramp 50 200) _ eq_refl eq_refl eq_refl
                  eq_refl Hvar) eq_refl).
Defined.

(** * One code per file, and the two lists *)

Lemma separate_loop_filter (l valid_files invalid_files : list checked) :
  separate_loop l valid_files invalid_files
  = (valid_files ++ filter (fun c => snd c =? 0) l,
     invalid_files ++ filter (fun c => negb (snd c =? 0)) l).
Proof.
  revert valid_files invalid_files.
  induction l as [|c l IH]; intros v i; cbn [separate_loop filter].
  - now rewrite !app_nil_r.
  - destruct (snd c =? 0); cbn [negb]; rewrite IH, <- app_assoc; reflexivity.
Qed.

Lemma separate_files_filter (l : list checked) :
  separate_files l
  = (filter (fun c => snd c =? 0) l, filter (fun c => negb (snd c =? 0)) l).
Proof. unfold separate_files. now rewrite separate_loop_filter. Qed.

Lemma filter_partition_Permutation {A : Type} (f : A -> bool) (l : list A) :
  Permutation l (filter f l ++ filter (fun x => negb (f x)) l).
Proof.
  induction l as [|x l IH]; cbn [filter]; [constructor|].
  destruct (f x); cbn [negb app].
  - now constructor.
  - now apply Permutation_cons_app.
Qed.

(** C8 (where the code leaves the claim): a file that opens, has an allowed
    extension and more than 10000 bytes, and whose pixel data cannot be
    decoded, so that computing the variances raises, gets no code: the
    validator raises on it whatever was checked before, and so does the
    classification of every list that holds the file; no file of such a run
    is assigned a code. *)
Theorem check_files_decode_error (P : Pillow) (file_path output_dir : string)
    (im : Image P) (e : exn) :
  Image_open P file_path = Ok im ->
  endswith_any (lower file_path) allowed_extensions = true ->
  getsize P file_path > 10000 ->
  stat_var P im = Raise e ->
  (forall checked_files,
     validate_file P file_path output_dir checked_files = Raise e)
  /\ (forall pre post, exists e',
        check_files P (pre ++ file_path :: post) output_dir = Raise e')
  /\ (forall pre post before,
        check_files P pre output_dir = Ok before ->
        check_files P (pre ++ file_path :: post) output_dir = Raise e).
Proof.
  intros Hopen Hext Hsize Hstat.
  assert (forall chk, validate_file P file_path output_dir chk = Raise e) as Hv.
  { intros chk. unfold validate_file. rewrite Hopen, Hext. cbn [negb].
    replace (getsize P file_path >? 10000) with true
      by (symmetry; apply Z.gtb_lt; lia).
    cbn [negb bind]. now rewrite Hstat. }
  split; [exact Hv|].
  assert (forall pre post,
            check_files P (pre ++ file_path :: post) output_dir
            = (r <- check_files P pre output_dir ;; Raise e)) as Hrun.
  { intros pre post. unfold check_files. rewrite check_loop_app.
    destruct (check_loop P pre output_dir []) as [before|]; cbn [bind];
      [|reflexivity].
    cbn [check_loop]. now rewrite Hv. }
  split.
  - intros pre post. rewrite Hrun.
    destruct (check_files P pre output_dir); cbn [bind]; eauto.
  - intros pre post before Hb. rewrite Hrun, Hb. reflexivity.
Qed.

Lemma check_files_decode_error_witness :
  Image_open (Raster.pillow Scenes.cut_files) "in/u.jpg"
  = Ok (Raster.cut (Raster.ramp 100 100))
  /\ endswith_any (lower "in/u.jpg") allowed_extensions = true
  /\ getsize (Raster.pillow Scenes.cut_files) "in/u.jpg" > 10000
  /\ stat_var (Raster.pillow Scenes.cut_files) (Raster.cut (Raster.ramp 100 100))
     = Raise IOError
  /\ check_files (Raster.pillow Scenes.cut_files) ["in/a.jpg"%string] "out"
     = Ok [("in/a.jpg"%string, 0)]
  /\ check_files (Raster.pillow Scenes.cut_files)
       (["in/a.jpg"%string] ++ "in/u.jpg"%string :: []) "out"
     = Raise IOError.
Proof.
  assert (check_files (Raster.pillow Scenes.cut_files) ["in/a.jpg"%string] "out"
          = Ok [("in/a.jpg"%string, 0)]) as Hpre
    by (vm_compute; reflexivity).
  split; [reflexivity|]. split; [reflexivity|]. split; [reflexivity|].
  split; [reflexivity|]. split; [exact Hpre|].
  exact (proj2 (proj2 (check_files_decode_error (Raster.pillow Scenes.cut_files)
                  "in/u.jpg" "out" (Raster.cut (Raster.ramp 100 100)) IOError
                  eq_refl eq_refl eq_refl eq_refl))
           ["in/a.jpg"%string] [] _ Hpre).
Defined.

(** * The comparison pool *)

Lemma validate_file_pool (P : Pillow) (file_path output_dir : string)
    (l : list checked) :
  validate_file P file_path output_dir (pool l)
  = validate_file P file_path output_dir l.
Proof.
  unfold validate_file.
  destruct (Image_open P file_path) as [im|]; [|reflexivity].
  destruct (negb (endswith_any _ _)); [reflexivity|].
  destruct (negb (getsize P file_path >? 10000)); [reflexivity|].
  cbn [bind]. destruct (stat_var P im) as [v|]; cbn [bind]; [|reflexivity].
  destruct (negb (negb (Qle_bool _ _))); [reflexivity|].
  destruct (im_size P im) as [w h].
  destruct (negb _ || _); [reflexivity|].
  symmetry. apply compare_loop_pool.
Qed.

Lemma pool_snoc (l : list checked) (file_path : string) (c : Z) :
  pool (l ++ [(file_path, c)])
  = if (c =? 3) || (c =? 1) then pool l else pool l ++ [(file_path, c)].
Proof.
  unfold pool. rewrite filter_app. cbn [filter]. unfold in_pool at 2; cbn [snd].
  destruct (c =? 3), (c =? 1); cbn; now rewrite ?app_nil_r.
Qed.

(** C1 (as the code has it): in a run, a file is classified against the
    entries of the files before it in the scan and no others; of these the
    duplicate check opens and compares exactly those whose code is neither 3
    nor 1, so entries with the codes 0, 2, 4, 5 and 6 all take part; the
    entry of the file joins that pool for the later files exactly when its
    own code is neither 3 nor 1. *)
Theorem comparison_pool (P : Pillow) (pre post : list string)
    (file_path output_dir : string) (checked_files : list checked) :
  check_files P (pre ++ file_path :: post) output_dir = Ok checked_files ->
  exists before c after,
    checked_files = before ++ (file_path, c) :: after
    /\ map fst before = pre
    /\ map fst after = post
    /\ validate_file P file_path output_dir before = Ok c
    /\ validate_file P file_path output_dir (pool before) = Ok c
    /\ (forall im, passes_five P file_path im ->
          c = if existsb (same_as P im) (pool before) then 6 else 0)
    /\ pool (before ++ [(file_path, c)])
       = if (c =? 3) || (c =? 1) then pool before
         else pool before ++ [(file_path, c)].
Proof.
  intros H. apply check_files_split in H
    as (before & c & after & -> & _ & Hpre & Hpost & Hv).
  exists before, c, after. repeat split; try assumption.
  - now rewrite validate_file_pool.
  - intros im Hfive.
    rewrite (passes_five_validate P _ _ im _ Hfive) in Hv.
    now apply compare_loop_Ok in Hv.
  - apply pool_snoc.
Qed.

Lemma comparison_pool_witness :
  check_files (Raster.pillow Examples.small_then_large)
    (["in/a.jpg"%string] ++ "in/b.jpg"%string :: []) "out"
  = Ok [("in/a.jpg"%string, 2); ("in/b.jpg"%string, 6)]
  /\ exists before c after,
       [("in/a.jpg"%string, 2); ("in/b.jpg"%string, 6)]
       = before ++ ("in/b.jpg"%string, c) :: after
       /\ map fst before = ["in/a.jpg"%string]
       /\ pool (before ++ [("in/b.jpg"%string, c)])
          = if (c =? 3) || (c =? 1) then pool before
            else pool before ++ [("in/b.jpg"%string, c)].
Proof.
  assert (check_files (Raster.pillow Examples.small_then_large)
            (["in/a.jpg"%string] ++ "in/b.jpg"%string :: []) "out"
          = Ok [("in/a.jpg"%string, 2); ("in/b.jpg"%string, 6)]) as Hrun
    by (vm_compute; reflexivity).
  split; [exact Hrun|].
  destruct (comparison_pool _ _ _ _ _ _ Hrun)
    as (before & c & after & Heq & Hpre & _ & _ & _ & _ & Hpool).
  exists before, c, after. auto.
Defined.

(** The pool is not the list of accepted files: a file of 5000 bytes gets
    code 2, and a later, larger file with the same pixels is compared
    against it and gets code 6, although no file was accepted before it. *)
Lemma pool_is_accepted_counterexample :
  check_files (Raster.pillow Examples.small_then_large)
    ["in/a.jpg"; "in/b.jpg"]%string "out"
  = Ok [("in/a.jpg"%string, 2); ("in/b.jpg"%string, 6)]
  /\ accepted [("in/a.jpg"%string, 2)] = []
  /\ pool [("in/a.jpg"%string, 2)] = [("in/a.jpg"%string, 2)]
  /\ validate_file (Raster.pillow Examples.small_then_large) "in/b.jpg" "out"
       (accepted [("in/a.jpg"%string, 2)]) = Ok 0.
Proof. repeat split; vm_compute; reflexivity. Qed.

(** * Comparisons that fail *)





(** * Identical files *)

Lemma same_as_self (P : Pillow) (file_path : string) (im : Image P) (c : Z) :
  Image_open P file_path = Ok im ->
  difference_getbbox P im im = Ok None ->
  same_as P im (file_path, c) = true.
Proof.
  intros Hopen Hself. unfold same_as, is_equal; cbn [fst].
  now rewrite Hopen, Hself.
Qed.

Lemma check_files_pair (P : Pillow) (a b output_dir : string) (im : Image P) :
  passes_five P a im ->
  passes_five P b im ->
  check_files P [a; b] output_dir
  = match difference_getbbox P im im with
    | Ok None => Ok [(a, 0); (b, 6)]
    | Ok (Some _) | Raise ValueError => Ok [(a, 0); (b, 0)]
    | Raise e => Raise e
    end.
Proof.
  intros Ha Hb. unfold check_files; cbn [check_loop].
  rewrite (passes_five_validate P a output_dir im [] Ha). cbn [compare_loop bind app].
  rewrite (passes_five_validate P b output_dir im _ Hb). cbn [compare_loop fst snd].
  destruct Ha as (Hopen & _). rewrite Hopen. cbn [bind andb negb Z.eqb].
  unfold is_equal.
  destruct (difference_getbbox P im im) as [[bb|]|[| |name]]; reflexivity.
Qed.

(** C5 (as the code has it): of two files that decode to the same image and
    pass the first five rules, when the difference of that image with itself
    is computed and is empty, the run over the two gives the one scanned
    first 0 and the other 6, in either order; in a longer run that returns,
    the later of the two gets 6, and the earlier gets 0 unless it equals an
    entry of the pool before it, and then it gets 6 as well.  When the
    difference of the image with itself raises [ValueError], the run over
    the two gives both 0. *)
Theorem first_occurrence_wins (P : Pillow) (a b output_dir : string)
    (im : Image P) :
  passes_five P a im ->
  passes_five P b im ->
  (difference_getbbox P im im = Ok None ->
   check_files P [a; b] output_dir = Ok [(a, 0); (b, 6)]
   /\ check_files P [b; a] output_dir = Ok [(b, 0); (a, 6)]
   /\ (forall pre mid post checked_files,
         check_files P (pre ++ a :: mid ++ b :: post) output_dir
         = Ok checked_files ->
         nth_error checked_files (List.length pre)
         = Some (a, if existsb (same_as P im)
                         (pool (firstn (List.length pre) checked_files))
                    then 6 else 0)
         /\ nth_error checked_files (List.length pre + S (List.length mid))
            = Some (b, 6)))
  /\ (difference_getbbox P im im = Raise ValueError ->
      check_files P [a; b] output_dir = Ok [(a, 0); (b, 0)]
      /\ check_files P [b; a] output_dir = Ok [(b, 0); (a, 0)]).
Proof.
  intros Ha Hb. split.
  - intros Hself. split; [|split].
    + rewrite (check_files_pair P a b output_dir im Ha Hb). now rewrite Hself.
    + rewrite (check_files_pair P b a output_dir im Hb Ha). now rewrite Hself.
    + intros pre mid post res Hres.
      assert (exists before ca rest,
                res = before ++ (a, ca) :: rest
                /\ List.length before = List.length pre
                /\ ca = if existsb (same_as P im) (pool before) then 6 else 0)
        as (before & ca & rest & Hshape & Hlen & Hca).
      { pose proof Hres as H. apply check_files_split in H
          as (before & ca & rest & -> & _ & Hpre & _ & Hv).
        exists before, ca, rest. split; [reflexivity|]. split.
        - now rewrite <- (length_map fst before), Hpre.
        - rewrite (passes_five_validate P a output_dir im _ Ha) in Hv.
          now apply compare_loop_Ok in Hv. }
      assert (nth_error res (List.length pre)
              = Some (a, if existsb (same_as P im)
                              (pool (firstn (List.length pre) res))
                         then 6 else 0)) as Hfirst.
      { rewrite Hshape, <- Hlen, nth_error_app2, Nat.sub_diag by lia.
        rewrite firstn_app, Nat.sub_diag, firstn_all. cbn [firstn nth_error].
        rewrite app_nil_r. now rewrite <- Hca. }
      split; [exact Hfirst|].
      replace (pre ++ a :: mid ++ b :: post)
        with ((pre ++ a :: mid) ++ b :: post) in Hres
        by (rewrite <- app_assoc; reflexivity).
      apply check_files_split in Hres
        as (before' & c & after & Heq & _ & Hpre & _ & Hv).
      assert (List.length before' = (List.length pre + S (List.length mid))%nat)
        as Hlen'.
      { rewrite <- (length_map fst before'), Hpre, length_app. reflexivity. }
      rewrite Heq in Hfirst. rewrite nth_error_app1 in Hfirst by lia.
      rewrite Heq, <- Hlen', nth_error_app2, Nat.sub_diag by lia.
      cbn [nth_error].
      rewrite (passes_five_validate P b output_dir im _ Hb) in Hv.
      apply compare_loop_Ok in Hv.
      replace (existsb (same_as P im) (pool before')) with true in Hv;
        [now subst c|].
      symmetry. apply existsb_exists. eexists. split.
      * apply filter_In. split; [eapply nth_error_In; eassumption|].
        unfold in_pool; cbn [snd].
        match goal with |- context [if ?x then 6 else 0] => destruct x end;
          reflexivity.
      * apply same_as_self; [apply Ha|assumption].
  - intros Hself. split.
    + rewrite (check_files_pair P a b output_dir im Ha Hb). now rewrite Hself.
    + rewrite (check_files_pair P b a output_dir im Hb Ha). now rewrite Hself.
Qed.

Lemma ramp_passes_five (d : Raster.disk) (file_path : string) (bytes : Z) :
  Raster.lookup d file_path = Some (Examples.jpg bytes (Raster.ramp 100 100)) ->
  endswith_any (lower file_path) allowed_extensions = true ->
  bytes > 10000 ->
  passes_five (Raster.pillow d) file_path (Raster.ramp 100 100).
Proof.
  intros Hfile Hext Hbytes. unfold passes_five.
  cbn [Image_open getsize stat_var im_size array_shape Raster.pillow].
  rewrite Hfile. cbn [Examples.jpg Raster.content Raster.size].
  split; [reflexivity|]. split; [exact Hext|]. split; [exact Hbytes|].
  split; [eexists; split; [reflexivity|vm_compute; reflexivity]|].
  repeat split; first [vm_compute; discriminate | cbn; lia].
Defined.

Lemma first_occurrence_wins_witness :
  (passes_five (Raster.pillow Scenes.triplets) "in/a.jpg" (Raster.ramp 100 100)
   /\ passes_five (Raster.pillow Scenes.triplets) "in/b.jpg" (Raster.ramp 100 100)
   /\ difference_getbbox (Raster.pillow Scenes.triplets)
        (Raster.ramp 100 100) (Raster.ramp 100 100) = Ok None)
  /\ (check_files (Raster.pillow Scenes.triplets)
        ["in/a.jpg"; "in/b.jpg"]%string "out"
      = Ok [("in/a.jpg"%string, 0); ("in/b.jpg"%string, 6)]
      /\ check_files (Raster.pillow Scenes.triplets)
           ["in/b.jpg"; "in/a.jpg"]%string "out"
         = Ok [("in/b.jpg"%string, 0); ("in/a.jpg"%string, 6)])
  /\ (check_files (Raster.pillow Scenes.triplets)
        (["in/0.jpg"%string] ++ "in/a.jpg"%string :: [] ++ "in/b.jpg"%string :: [])
        "out"
      = Ok [("in/0.jpg"%string, 2); ("in/a.jpg"%string, 6);
            ("in/b.jpg"%string, 6)]
      /\ nth_error [("in/0.jpg"%string, 2); ("in/a.jpg"%string, 6);
                    ("in/b.jpg"%string, 6)] 2
         = Some ("in/b.jpg"%string, 6)).
Proof.
  assert (passes_five (Raster.pillow Scenes.triplets) "in/a.jpg"
            (Raster.ramp 100 100)) as Ha
    by (apply (ramp_passes_five _ _ 20000); [reflexivity|reflexivity|lia]).
  assert (passes_five (Raster.pillow Scenes.triplets) "in/b.jpg"
            (Raster.ramp 100 100)) as Hb
    by (apply (ramp_passes_five _ _ 20000); [reflexivity|reflexivity|lia]).
  assert (difference_getbbox (Raster.pillow Scenes.triplets)
            (Raster.ramp 100 100) (Raster.ramp 100 100) = Ok None) as Hself
    by (vm_compute; reflexivity).
  assert (check_files (Raster.pillow Scenes.triplets)
            (["in/0.jpg"%string] ++ "in/a.jpg"%string :: []
             ++ "in/b.jpg"%string :: []) "out"
          = Ok [("in/0.jpg"%string, 2); ("in/a.jpg"%string, 6);
                ("in/b.jpg"%string, 6)]) as Hrun
    by (vm_compute; reflexivity).
  destruct (first_occurrence_wins (Raster.pillow Scenes.triplets)
              "in/a.jpg" "in/b.jpg" "out" (Raster.ramp 100 100) Ha Hb)
    as [Hempty _].
  destruct (Hempty Hself) as (Hab & Hba & Hlong).
  split; [auto|]. split; [auto|]. split; [exact Hrun|].
  exact (proj2 (Hlong _ _ _ _ Hrun)).
Defined.

(** Two files with the same bytes that both get code 0: the band values of
    the image are wider than 8 bits, the difference of it with itself
    raises, and the failed comparison is skipped.  And two files with the
    same bytes that both get code 6: a file of 5000 bytes with the same
    pixels was scanned before them. *)
Lemma identical_files_counterexample :
  (Raster.lookup Examples.deep_twins "in/a.jpg"
   = Raster.lookup Examples.deep_twins "in/b.jpg"
   /\ check_files (Raster.pillow Examples.deep_twins)
        ["in/a.jpg"; "in/b.jpg"]%string "out"
      = Ok [("in/a.jpg"%string, 0); ("in/b.jpg"%string, 0)])
  /\ (Raster.lookup Scenes.triplets "in/a.jpg"
      = Raster.lookup Scenes.triplets "in/b.jpg"
      /\ check_files (Raster.pillow Scenes.triplets)
           ["in/0.jpg"; "in/a.jpg"; "in/b.jpg"]%string "out"
         = Ok [("in/0.jpg"%string, 2); ("in/a.jpg"%string, 6);
               ("in/b.jpg"%string, 6)]).
Proof. repeat split; vm_compute; reflexivity. Qed.

(** * The names of the copies *)

Lemma string_length_append (s1 s2 : string) :
  String.length (s1 ++ s2) = (String.length s1 + String.length s2)%nat.
Proof. induction s1 as [|c s1 IH]; cbn; [reflexivity|now rewrite IH]. Qed.

Lemma zeros_length (n : nat) : String.length (zeros n) = n.
Proof. induction n as [|n IH]; cbn; [reflexivity|now rewrite IH]. Qed.

Lemma string_of_uint_length (d : Decimal.uint) :
  String.length (NilEmpty.string_of_uint d) = Unsigned.usize d.
Proof. induction d; cbn; now rewrite ?IHd. Qed.

Lemma to_uint_normal (n : nat) : Decimal.unorm (Nat.to_uint n) = Nat.to_uint n.
Proof. now rewrite <- Unsigned.to_of, Unsigned.of_to. Qed.

Lemma to_uint_nonnil (n : nat) : Nat.to_uint n <> Decimal.Nil.
Proof. rewrite <- to_uint_normal. apply DecimalFacts.unorm_nonnil. Qed.

Lemma decimal_length (n : nat) :
  String.length (NilZero.string_of_uint (Nat.to_uint n))
  = Unsigned.usize (Nat.to_uint n).
Proof.
  unfold NilZero.string_of_uint.
  destruct (Nat.to_uint n) eqn:Hd; try apply string_of_uint_length.
  now elim (to_uint_nonnil n).
Qed.

(** A numeral without leading zero is at least the power of ten of its
    length. *)
Lemma of_uint_lower_bound (d : Decimal.uint) :
  Decimal.nzhead d = d -> d <> Decimal.Nil ->
  (10 ^ (Unsigned.usize d - 1) <= Nat.of_uint d)%nat.
Proof.
  intros Hnz Hnil.
  destruct d as [|d|d|d|d|d|d|d|d|d|d];
    [ congruence
    | now elim (DecimalFacts.nzhead_nonzero (Decimal.D0 d) d)
    | unfold Nat.of_uint; cbn [Nat.of_uint_acc Unsigned.usize];
      rewrite Unsigned.of_uint_acc_spec, Nat.tail_mul_spec, Nat.sub_succ,
        Nat.sub_0_r; nia .. ].
Qed.

Lemma usize_bound (n : nat) :
  (n < 10 ^ 6)%nat -> (Unsigned.usize (Nat.to_uint n) <= 6)%nat.
Proof.
  intros Hn.
  destruct (Nat.le_gt_cases (Unsigned.usize (Nat.to_uint n)) 6) as [|Hbig];
    [assumption|exfalso].
  pose proof (to_uint_normal n) as Hnorm.
  unfold Decimal.unorm in Hnorm.
  assert (Decimal.nzhead (Nat.to_uint n) = Nat.to_uint n) as Hnz.
  { destruct (Decimal.nzhead (Nat.to_uint n)) eqn:Hh; try exact Hnorm.
    rewrite <- Hnorm in Hbig. cbn in Hbig. lia. }
  pose proof (of_uint_lower_bound _ Hnz (to_uint_nonnil n)) as Hlow.
  rewrite Unsigned.of_to in Hlow.
  assert (10 ^ 6 <= 10 ^ (Unsigned.usize (Nat.to_uint n) - 1))%nat
    by (apply Nat.pow_le_mono_r; lia).
  lia.
Qed.

Lemma format_06d_length (n : nat) :
  (n < 10 ^ 6)%nat -> String.length (format_06d n) = 6%nat.
Proof.
  intros Hn. unfold format_06d.
  rewrite string_length_append, zeros_length, decimal_length.
  pose proof (usize_bound n Hn). lia.
Qed.

Lemma uint_of_string_zeros (k : nat) (s : string) (d : Decimal.uint) :
  NilEmpty.uint_of_string s = Some d ->
  NilEmpty.uint_of_string (zeros k ++ s) = Some (Nat.iter k Decimal.D0 d).
Proof.
  intros Hs. induction k as [|k IH]; cbn; [assumption|].
  cbn in IH. now rewrite IH.
Qed.

Lemma read_format_06d (n : nat) : read_number (format_06d n) = Some n.
Proof.
  unfold read_number, format_06d.
  rewrite (uint_of_string_zeros _ _ (Nat.to_uint n)).
  - cbn [option_map]. f_equal.
    rewrite <- Unsigned.of_uint_norm, DecimalFacts.unorm_iter_D0,
      Unsigned.of_uint_norm.
    apply Unsigned.of_to.
  - unfold NilZero.string_of_uint.
    destruct (Nat.to_uint n) eqn:Hd; try (rewrite <- Hd; apply NilEmpty.usu).
    now elim (to_uint_nonnil n).
Qed.

Lemma format_06d_inj (i j : nat) : format_06d i = format_06d j -> i = j.
Proof.
  intros H. pose proof (read_format_06d i) as Hi.
  rewrite H, read_format_06d in Hi. congruence.
Qed.

Lemma copy_loop_sources (i : nat) (valid_files : list checked) (output_dir : string) :
  map fst (copy_loop i valid_files output_dir) = map fst valid_files.
Proof.
  revert i. induction valid_files as [|e l IH]; intros i; cbn; [reflexivity|].
  now rewrite IH.
Qed.

Lemma copy_loop_destinations (i : nat) (valid_files : list checked)
    (output_dir : string) :
  map snd (copy_loop i valid_files output_dir)
  = map (fun k => path_join output_dir (format_06d k ++ ".jpg"))
        (seq (i + 1) (List.length valid_files)).
Proof.
  revert i. induction valid_files as [|e l IH]; intros i; cbn [copy_loop map List.length seq];
    [reflexivity|].
  rewrite IH. cbn [snd].
  replace (S i + 1)%nat with (S (i + 1)) by lia. reflexivity.
Qed.


(** The copies made are an initial part of the calls, all of them when the
    loop returns, and those before the call that raised otherwise. *)
Lemma perform_copies_spec (copyfile : copier) (calls : list copy) :
  forall made,
  exists done rest,
    calls = done ++ rest
    /\ fst (perform_copies copyfile made calls) = made ++ done
    /\ match snd (perform_copies copyfile made calls) with
       | Ok _ => rest = []
       | Raise e =>
           exists call rest',
             rest = call :: rest' /\ copyfile (made ++ done) call = Raise e
       end.
Proof.
  induction calls as [|call calls IH]; intros made; cbn [perform_copies].
  - exists [], []. cbn. now rewrite app_nil_r.
  - destruct (copyfile made call) as [u|e] eqn:Hcall.
    + destruct (IH (made ++ [call])) as (done & rest & -> & Hfst & Hsnd).
      exists (call :: done), rest. rewrite <- app_assoc in Hfst, Hsnd.
      cbn [app] in *. auto.
    + exists [], (call :: calls). cbn [app fst snd]. rewrite app_nil_r.
      repeat split. exists call, calls. auto.
Qed.

Lemma perform_copies_Ok (copyfile : copier) (calls : list copy) :
  snd (perform_copies copyfile [] calls) = Ok tt ->
  perform_copies copyfile [] calls = (calls, Ok tt).
Proof.
  intros Hsnd.
  destruct (perform_copies_spec copyfile calls []) as (done & rest & -> & Hfst & H).
  rewrite Hsnd in H. subst rest. rewrite app_nil_r in *.
  destruct (perform_copies copyfile [] done) as [copies r].
  cbn [fst snd app] in *. now subst.
Qed.

Lemma perform_copies_all (calls : list copy) :
  perform_copies (copyfile copies_all) [] calls = (calls, Ok tt).
Proof.
  apply perform_copies_Ok.
  destruct (perform_copies_spec (copyfile copies_all) calls [])
    as (done & rest & _ & _ & H).
  destruct (snd (perform_copies (copyfile copies_all) [] calls)) as [[]|e];
    [reflexivity|].
  destruct H as (call & rest' & _ & Hcall). discriminate.
Qed.

(** The steps of a run after a classification that returned. *)
Lemma pre_processsing_checked (P : Pillow) (fs : filesystem) (cwd : string)
    (tree : list node) (input_dir output_dir logfile : string)
    (checked_files : list checked) :
  check_files P (get_files tree input_dir) output_dir = Ok checked_files ->
  pre_processsing P fs cwd tree input_dir output_dir logfile
  = match perform_copies (copyfile fs) []
            (copy_valid_files (accepted checked_files) output_dir) with
    | (copies, Raise e) =>
        {| copied := copies; logged := None; returned := Raise e |}
    | (copies, Ok _) =>
        match open_w fs logfile with
        | Raise e =>
            {| copied := copies; logged := None; returned := Raise e |}
        | Ok _ =>
            match write_log_file cwd logfile (snd (separate_files checked_files))
                    input_dir with
            | (lines, Raise e) =>
                {| copied := copies; logged := Some lines; returned := Raise e |}
            | (lines, Ok _) =>
                {| copied := copies; logged := Some lines;
                   returned :=
                     Ok (Z.of_nat (List.length (accepted checked_files))) |}
            end
        end
    end.
Proof.
  intros Hres. unfold pre_processsing. rewrite Hres, separate_files_filter.
  reflexivity.
Qed.

(** C9: in a run whose classification returned and whose copies all
    succeeded, the files copied are the accepted files, in the order of the
    scan, and the i-th of them (from 1) goes to the output directory under
    the name [{i:06d}.jpg]: the names follow 1, 2, ... with none left out,
    the files rejected use no number, a number below one million is written
    with six digits, and different numbers give different names. *)
Theorem copy_valid_files_names (P : Pillow) (fs : filesystem) (cwd : string)
    (tree : list node) (input_dir output_dir logfile : string)
    (checked_files : list checked) :
  check_files P (get_files tree input_dir) output_dir = Ok checked_files ->
  snd (perform_copies (copyfile fs) []
         (copy_valid_files (accepted checked_files) output_dir)) = Ok tt ->
  copied (pre_processsing P fs cwd tree input_dir output_dir logfile)
  = copy_valid_files (accepted checked_files) output_dir
  /\ map fst (copy_valid_files (accepted checked_files) output_dir)
     = map fst (accepted checked_files)
  /\ map snd (copy_valid_files (accepted checked_files) output_dir)
     = map (fun i => path_join output_dir (format_06d i ++ ".jpg"))
           (seq 1 (List.length (accepted checked_files)))
  /\ (forall i, (i < 10 ^ 6)%nat -> String.length (format_06d i) = 6%nat)
  /\ (forall i j, format_06d i = format_06d j -> i = j)
  /\ format_06d 1 = "000001"%string.
Proof.
  intros Hres Hcopies.
  split; [|split; [|split; [|split; [|split]]]].
  - rewrite (pre_processsing_checked P fs cwd tree input_dir output_dir
               logfile checked_files Hres).
    rewrite (perform_copies_Ok _ _ Hcopies).
    destruct (open_w fs logfile); [|reflexivity].
    now destruct (write_log_file _ _ _ _) as [lines [[]|e]].
  - apply copy_loop_sources.
  - apply (copy_loop_destinations 0).
  - exact format_06d_length.
  - exact format_06d_inj.
  - reflexivity.
Qed.

Lemma copy_valid_files_names_witness :
  check_files (Raster.pillow Examples.tree_disk)
    (get_files Examples.tree "in") "out"
  = Ok [("in/b.jpg", 0); ("in/sub.d", 3); ("in/sub.d/a.JPG", 0);
        ("in/z/y/q.png", 1)]%string
  /\ snd (perform_copies (copyfile copies_all) []
            (copy_valid_files
               (accepted [("in/b.jpg", 0); ("in/sub.d", 3); ("in/sub.d/a.JPG", 0);
        ("in/z/y/q.png", 1)]%string)
               "out")) = Ok tt
  /\ (12 < 10 ^ 6)%nat /\ String.length (format_06d 12) = 6%nat
  /\ format_06d 12 = "000012"%string
  /\ copied (pre_processsing (Raster.pillow Examples.tree_disk) copies_all
               "/data" Examples.tree "in" "out" "log.txt")
     = [("in/b.jpg", "out/000001.jpg"); ("in/sub.d/a.JPG", "out/000002.jpg")]%string.
Proof.
  assert (check_files (Raster.pillow Examples.tree_disk)
            (get_files Examples.tree "in") "out"
          = Ok [("in/b.jpg", 0); ("in/sub.d", 3); ("in/sub.d/a.JPG", 0);
        ("in/z/y/q.png", 1)]%string) as Hres
    by (vm_compute; reflexivity).
  assert (snd (perform_copies (copyfile copies_all) []
                 (copy_valid_files
                    (accepted [("in/b.jpg", 0); ("in/sub.d", 3); ("in/sub.d/a.JPG", 0);
        ("in/z/y/q.png", 1)]%string)
                    "out")) = Ok tt) as Hcopies
    by (vm_compute; reflexivity).
  destruct (copy_valid_files_names (Raster.pillow Examples.tree_disk) copies_all
              "/data" Examples.tree "in" "out" "log.txt" _ Hres Hcopies)
    as (Hcopied & _ & _ & Hlen & _ & _).
  split; [exact Hres|]. split; [exact Hcopies|].
  split; [apply Nat.lt_le_trans with (10 ^ 2)%nat;
          [cbn; lia|apply Nat.pow_le_mono_r; lia]|].
  split; [apply Hlen; apply Nat.lt_le_trans with (10 ^ 2)%nat;
          [cbn; lia|apply Nat.pow_le_mono_r; lia]|].
  split; [reflexivity|].
  rewrite Hcopied. vm_compute. reflexivity.
Defined.

(** * Paths *)

Lemma isabs_cons (c : ascii) (s : string) :
  isabs (String c s) = Ascii.eqb c "/".
Proof.
  unfold isabs, startswith. cbn [String.prefix].
  destruct (ascii_dec "/" c) as [<-|Hne].
  - now destruct s.
  - symmetry. apply Ascii.eqb_neq. congruence.
Qed.

Lemma isabs_append (a b : string) :
  a <> ""%string -> isabs (a ++ b) = isabs a.
Proof.
  destruct a as [|c a]; [congruence|]. intros _.
  change (String c a ++ b)%string with (String c (a ++ b)%string).
  now rewrite !isabs_cons.
Qed.

Lemma isabs_path_join (a b : string) :
  isabs b = false -> isabs (path_join a b) = isabs a.
Proof.
  intros Hb. unfold path_join. fold (isabs b). rewrite Hb.
  destruct a as [|c a]; [exact Hb|].
  cbn [String.eqb orb].
  destruct (endswith (String c a) "/"); now rewrite isabs_append.
Qed.

Lemma initial_slashes_abs (s : string) :
  isabs s = true -> initial_slashes s = 1%nat \/ initial_slashes s = 2%nat.
Proof.
  unfold initial_slashes. fold (isabs s). intros ->.
  destruct (_ && _); auto.
Qed.

Lemma initial_slashes_rel (s : string) :
  isabs s = false -> initial_slashes s = 0%nat.
Proof. unfold initial_slashes. fold (isabs s). now intros ->. Qed.

Lemma normpath_abs (path : string) :
  isabs path = true -> isabs (normpath path) = true.
Proof.
  intros Habs. unfold normpath.
  destruct path as [|c path]; [discriminate|]. cbn [String.eqb].
  destruct (initial_slashes_abs _ Habs) as [-> | ->];
    cbn [slashes_string String.append String.eqb];
    now rewrite isabs_cons.
Qed.

Lemma abspath_abs (cwd path : string) :
  isabs cwd = true -> isabs (abspath cwd path) = true.
Proof.
  intros Hcwd. unfold abspath.
  destruct (isabs path) eqn:Hp; apply normpath_abs; [assumption|].
  now rewrite isabs_path_join.
Qed.

(** A relative path is never below an absolute one. *)
Lemma relative_to_raises (file_path base : string) :
  isabs file_path = false -> isabs base = true ->
  relative_to (Path file_path) (Path base) = Raise ValueError.
Proof.
  intros Hrel Habs. unfold relative_to, abs_parts, Path; cbn [root parts].
  rewrite (initial_slashes_rel _ Hrel). cbn [slashes_string String.eqb].
  assert (String.eqb (slashes_string (initial_slashes base)) "" = false) as ->
    by (destruct (initial_slashes_abs _ Habs) as [-> | ->]; reflexivity).
  cbn [List.length Nat.eqb firstn].
  destruct (filter is_part (split_slash file_path)) as [|x xs] eqn:Hparts;
    [reflexivity|].
  unfold strings_eqb.
  destruct (list_eq_dec string_dec _ _) as [Heq|]; [|reflexivity].
  exfalso. injection Heq as Hx _.
  assert (In x (filter is_part (split_slash file_path))) as Hin
    by (rewrite Hparts; now left).
  apply filter_In in Hin as [_ Hpart]. now subst x.
Qed.

Lemma plain_name_relative (name : string) :
  plain_name name = true -> isabs name = false.
Proof.
  destruct name as [|c name]; [reflexivity|].
  rewrite isabs_cons. unfold plain_name.
  cbn [list_ascii_of_string existsb]. rewrite Ascii.eqb_sym.
  now destruct (Ascii.eqb c "/").
Qed.

Lemma prefix_cons (d c : ascii) (p s : string) :
  String.prefix (String d p) (String c s) = Ascii.eqb d c && String.prefix p s.
Proof.
  cbn [String.prefix]. destruct (ascii_dec d c) as [->|Hne].
  - now rewrite Ascii.eqb_refl.
  - apply Ascii.eqb_neq in Hne. now rewrite Hne.
Qed.

Lemma prefix_nil (s : string) : String.prefix "" s = true.
Proof. now destruct s. Qed.

Lemma initial_slashes_three (c1 c2 c3 : ascii) (s s' : string) :
  initial_slashes (String c1 (String c2 (String c3 s)))
  = initial_slashes (String c1 (String c2 (String c3 s'))).
Proof.
  unfold initial_slashes, startswith. now rewrite !prefix_cons, !prefix_nil.
Qed.

Lemma endswith_slash (q : string) :
  endswith q "/" = true -> exists q', q = (q' ++ "/")%string.
Proof.
  induction q as [|c q IH]; [discriminate|].
  unfold endswith in *. cbn [String.length Nat.leb] in *.
  rewrite Nat.sub_succ, Nat.sub_0_r.
  destruct q as [|d q].
  - cbn. destruct (Ascii.eqb_spec c "/") as [->|]; [|discriminate].
    intros _. now exists ""%string.
  - cbn [String.length substring andb]. cbn [String.length Nat.leb andb] in IH.
    rewrite Nat.sub_succ, Nat.sub_0_r in IH.
    intros H. destruct (IH H) as (q' & ->). now exists (String c q').
Qed.

Lemma initial_slashes_chars (s : string) :
  initial_slashes s
  = match s with
    | String c1 rest =>
        if Ascii.eqb c1 "/" then
          match rest with
          | String c2 (String c3 _) =>
              if Ascii.eqb c2 "/" && negb (Ascii.eqb c3 "/") then 2%nat else 1%nat
          | String c2 EmptyString => if Ascii.eqb c2 "/" then 2%nat else 1%nat
          | EmptyString => 1%nat
          end
        else 0%nat
    | EmptyString => 0%nat
    end.
Proof.
  unfold initial_slashes, startswith.
  destruct s as [|c1 [|c2 [|c3 s]]]; rewrite ?prefix_cons, ?prefix_nil;
    try reflexivity;
    rewrite ?(Ascii.eqb_sym "/"), ?andb_true_r;
    repeat match goal with
           | |- context [Ascii.eqb ?c "/"] => destruct (Ascii.eqb c "/")
           end; reflexivity.
Qed.

Lemma initial_slashes_join (q name : string) :
  plain_name name = true ->
  initial_slashes (path_join q name) = initial_slashes q.
Proof.
  intros Hplain. pose proof (plain_name_relative _ Hplain) as Hrel.
  unfold path_join. fold (isabs name). rewrite Hrel.
  destruct q as [|c1 [|c2 [|c3 q]]].
  - cbn [String.eqb orb String.append]. now rewrite initial_slashes_rel.
  - destruct name as [|n0 name]; [|rewrite isabs_cons in Hrel];
      unfold endswith;
      cbn [String.eqb orb String.length Nat.leb Nat.sub substring andb String.append];
      rewrite !initial_slashes_chars;
      destruct (Ascii.eqb c1 "/") eqn:H1; cbn [String.append];
      rewrite ?H1, ?Hrel; cbn [andb negb]; try reflexivity;
      destruct name; reflexivity.
  - destruct name as [|n0 name]; [|rewrite isabs_cons in Hrel];
      unfold endswith;
      cbn [String.eqb orb String.length Nat.leb Nat.sub substring andb String.append];
      rewrite !initial_slashes_chars;
      destruct (Ascii.eqb c2 "/") eqn:H2; cbn [String.append];
      destruct (Ascii.eqb c1 "/") eqn:H1;
      rewrite ?H1, ?H2, ?Hrel; cbn [andb negb]; try reflexivity;
      try (destruct name; reflexivity).
  - destruct (_ || _); cbn [String.append]; apply initial_slashes_three.
Qed.

Lemma string_append_nil_r (s : string) : (s ++ "")%string = s.
Proof. induction s as [|c s IH]; cbn; [reflexivity|now rewrite IH]. Qed.

Lemma string_append_assoc (a b c : string) :
  ((a ++ b) ++ c)%string = (a ++ b ++ c)%string.
Proof. induction a as [|x a IH]; cbn; [reflexivity|now rewrite IH]. Qed.

Lemma split_slash_acc_append (a b : string) :
  forall cur,
    split_slash_acc (a ++ String "/" b) cur
    = split_slash_acc a cur ++ split_slash_acc b "".
Proof.
  induction a as [|c a IH]; intros cur; cbn [String.append split_slash_acc].
  - reflexivity.
  - destruct (Ascii.eqb c "/"); rewrite IH; reflexivity.
Qed.

Lemma split_slash_acc_plain (name : string) :
  forall cur,
    plain_name name = true ->
    split_slash_acc name cur = [(cur ++ name)%string].
Proof.
  unfold plain_name.
  induction name as [|c name IH]; intros cur Hplain;
    cbn [split_slash_acc list_ascii_of_string existsb] in *.
  - now rewrite string_append_nil_r.
  - rewrite negb_orb in Hplain. apply andb_true_iff in Hplain as [Hc Hname].
    rewrite Ascii.eqb_sym in Hc. apply negb_true_iff in Hc. rewrite Hc.
    rewrite IH by assumption. now rewrite string_append_assoc.
Qed.

Lemma parts_path_join (q name : string) :
  plain_name name = true ->
  filter is_part (split_slash (path_join q name))
  = filter is_part (split_slash q) ++ filter is_part [name].
Proof.
  intros Hplain. pose proof (plain_name_relative _ Hplain) as Hrel.
  unfold path_join. fold (isabs name). rewrite Hrel. unfold split_slash.
  destruct q as [|c q].
  - cbn [String.eqb orb String.append]. now rewrite split_slash_acc_plain.
  - cbn [String.eqb orb].
    destruct (endswith (String c q) "/") eqn:Hend.
    + apply endswith_slash in Hend as (q' & ->).
      rewrite string_append_assoc. cbn [String.append].
      rewrite !split_slash_acc_append, !filter_app.
      rewrite (split_slash_acc_plain name) by assumption.
      cbn [split_slash_acc filter is_part String.eqb negb andb String.append].
      now rewrite app_nil_r.
    + cbn [String.append].
      change (String c (q ++ String "/" name))
        with (String c q ++ String "/" name)%string.
      rewrite split_slash_acc_append, filter_app.
      now rewrite (split_slash_acc_plain name).
Qed.

Lemma Path_path_join (q name : string) :
  plain_name name = true ->
  Path (path_join q name)
  = {| root := root (Path q);
       parts := parts (Path q) ++ filter is_part [name] |}.
Proof.
  intros Hplain. unfold Path. cbn [root parts].
  now rewrite initial_slashes_join, parts_path_join.
Qed.

Lemma below_path_join (dirname q name : string) :
  plain_name name = true -> below dirname q -> below dirname (path_join q name).
Proof.
  intros Hplain (extra & Hq). exists (extra ++ filter is_part [name]).
  rewrite Path_path_join, Hq by assumption. cbn [root parts].
  now rewrite app_assoc.
Qed.

Lemma below_refl (dirname : string) : below dirname dirname.
Proof. exists []. rewrite app_nil_r. now destruct (Path dirname). Qed.

(** * The directory a scan starts from *)

Section GlobDirname.

Local Open Scope string_scope.

Lemma has_slash_append (a : string) (t : string) :
  has_slash (a ++ String "/" t) = true.
Proof.
  unfold has_slash. induction a as [|c a IH]; cbn [String.append list_ascii_of_string existsb].
  - reflexivity.
  - rewrite IH. apply orb_true_r.
Qed.

Lemma split_at_last_slash_append (a t : string) :
  has_slash t = false ->
  split_at_last_slash (a ++ String "/" t) = (a ++ "/", t).
Proof.
  intros Ht. induction a as [|c a IH]; cbn [String.append split_at_last_slash].
  - now rewrite Ht.
  - rewrite has_slash_append, IH. reflexivity.
Qed.

Lemma split_at_last_slash_plain (t : string) :
  has_slash t = false -> split_at_last_slash t = ("", t).
Proof.
  destruct t as [|c t]; [reflexivity|]. unfold has_slash.
  cbn [list_ascii_of_string existsb split_at_last_slash].
  intros H. apply orb_false_iff in H as [Hc Ht]. fold (has_slash t).
  unfold has_slash. rewrite Ht. rewrite Ascii.eqb_sym in Hc. now rewrite Hc.
Qed.

Lemma slashes_string_snoc (k : nat) :
  (slashes_string k ++ "/")%string = slashes_string (S k).
Proof. induction k as [|k IH]; cbn in *; [reflexivity|now rewrite IH]. Qed.

Lemma rstrip_slash_empty (s : string) :
  rstrip_slash s = "" <-> all_slashes s = true.
Proof.
  unfold all_slashes.
  induction s as [|c s IH]; cbn [rstrip_slash list_ascii_of_string forallb];
    [tauto|].
  rewrite (Ascii.eqb_sym "/" c).
  destruct (rstrip_slash s) as [|d r].
  - cbn [String.eqb andb]. destruct (Ascii.eqb c "/"); cbn [andb].
    + tauto.
    + split; discriminate.
  - cbn [String.eqb andb]. split; [discriminate|].
    intros H. apply andb_true_iff in H as [_ H]. apply IH in H. discriminate.
Qed.

Lemma all_slashes_false (s : string) :
  all_slashes s = false -> rstrip_slash s <> "".
Proof. intros H Hr. apply rstrip_slash_empty in Hr. congruence. Qed.

(** A string is what [rstrip] leaves of it, and slashes. *)
Lemma rstrip_slash_decomp (s : string) :
  exists k, s = (rstrip_slash s ++ slashes_string k)%string.
Proof.
  induction s as [|c s [k IH]]; cbn [rstrip_slash]; [now exists 0%nat|].
  destruct (rstrip_slash s) as [|d r] eqn:Hr.
  - cbn [String.eqb andb]. cbn [String.append] in IH.
    destruct (Ascii.eqb_spec c "/") as [->|Hc].
    + exists (S k). cbn. now rewrite <- IH.
    + exists k. cbn. now rewrite <- IH.
  - cbn [String.eqb andb]. exists k. cbn [String.append] in *. now rewrite <- IH.
Qed.

Lemma rstrip_slash_slashes (k : nat) : rstrip_slash (slashes_string k) = "".
Proof. induction k as [|k IH]; cbn; [reflexivity|now rewrite IH]. Qed.

Lemma rstrip_slash_append (r t : string) :
  rstrip_slash t = "" -> rstrip_slash (r ++ t) = rstrip_slash r.
Proof.
  intros Ht. induction r as [|c r IH]; cbn [String.append rstrip_slash];
    [assumption|now rewrite IH].
Qed.

Lemma rstrip_slash_idem (s : string) :
  rstrip_slash (rstrip_slash s) = rstrip_slash s.
Proof.
  induction s as [|c s IH]; cbn [rstrip_slash]; [reflexivity|].
  destruct (String.eqb (rstrip_slash s) "" && Ascii.eqb c "/") eqn:H;
    [reflexivity|].
  cbn [rstrip_slash]. rewrite IH, H. reflexivity.
Qed.

Lemma endswith_snoc (q : string) : endswith (q ++ "/") "/" = true.
Proof.
  unfold endswith.
  induction q as [|c q IH]; [reflexivity|].
  cbn [String.append String.length Nat.leb andb] in *.
  rewrite Nat.sub_succ, Nat.sub_0_r in *.
  destruct (q ++ "/")%string as [|d q'] eqn:Hq.
  - destruct q; discriminate.
  - cbn [String.length] in *. rewrite Nat.sub_succ, Nat.sub_0_r in IH.
    cbn [substring]. exact IH.
Qed.

Lemma all_slashes_endswith (s : string) :
  all_slashes s = true -> s <> "" -> endswith s "/" = true.
Proof.
  intros Hall Hne. destruct (rstrip_slash_decomp s) as [k Hk].
  apply rstrip_slash_empty in Hall. rewrite Hall in Hk. cbn in Hk.
  destruct k as [|k]; [now elim Hne|].
  rewrite Hk, <- slashes_string_snoc. apply endswith_snoc.
Qed.

Lemma all_slashes_append (a b : string) :
  all_slashes (a ++ b) = all_slashes a && all_slashes b.
Proof.
  unfold all_slashes. induction a as [|c a IH]; cbn; [reflexivity|].
  now rewrite IH, andb_assoc.
Qed.

Lemma rstrip_slash_append_nonempty (r t : string) :
  rstrip_slash t <> "" -> rstrip_slash (r ++ t) = (r ++ rstrip_slash t)%string.
Proof.
  intros Ht. induction r as [|c r IH]; cbn [String.append rstrip_slash];
    [reflexivity|].
  rewrite IH. destruct (r ++ rstrip_slash t)%string eqn:Hr; [|reflexivity].
  destruct r; [now elim Ht|discriminate].
Qed.

(** The directory the scan starts from is the input directory without its
    trailing slashes, unless it has nothing but slashes. *)
Lemma glob_dirname_eq (input_dir pat : string) :
  has_slash pat = false ->
  glob_dirname input_dir pat
  = if all_slashes input_dir then input_dir else rstrip_slash input_dir.
Proof.
  intros Hpat. unfold glob_dirname.
  assert (forall a, posix_split ((a ++ "**") ++ String "/" pat) = (a ++ "**", pat)%string)
    as Hfirst.
  { intros a. unfold posix_split.
    rewrite split_at_last_slash_append by assumption.
    rewrite !string_append_assoc, all_slashes_append.
    replace (all_slashes ("**" ++ "/")) with false by reflexivity.
    rewrite andb_false_r, andb_true_r.
    rewrite rstrip_slash_append_nonempty by discriminate.
    replace (rstrip_slash ("**" ++ "/")) with "**" by reflexivity.
    now destruct a. }
  unfold path_join, startswith.
  change ("**/" ++ pat)%string with (String "*" (String "*" (String "/" pat))).
  rewrite prefix_cons. cbn [Ascii.eqb Bool.eqb andb].
  destruct input_dir as [|c d].
  - cbn [String.eqb orb String.append].
    pose proof (Hfirst "") as H0. cbn [String.append] in H0.
    rewrite H0. reflexivity.
  - cbn [String.eqb orb].
    destruct (endswith (String c d) "/") eqn:Hend.
    + pose proof Hend as Hq. apply endswith_slash in Hq as (q & Hq).
      replace (String c d ++ String "*" (String "*" (String "/" pat)))%string
        with ((String c d ++ "**") ++ String "/" pat)%string
        by (now rewrite string_append_assoc).
      rewrite Hfirst. cbn [fst]. rewrite Hq at 1.
      rewrite string_append_assoc. cbn [String.append].
      unfold posix_split.
      rewrite split_at_last_slash_append by reflexivity.
      rewrite <- Hq. cbn [String.eqb negb andb].
      now destruct (all_slashes (String c d)).
    + replace (String c d ++ "/" ++ String "*" (String "*" (String "/" pat)))%string
        with (((String c d ++ "/") ++ "**") ++ String "/" pat)%string
        by (now rewrite !string_append_assoc).
      rewrite Hfirst. cbn [fst].
      rewrite string_append_assoc. cbn [String.append].
      change (String c (d ++ String "/" "**"))
        with (String c d ++ String "/" "**")%string.
      unfold posix_split.
      rewrite split_at_last_slash_append by reflexivity.
      cbn [String.append String.eqb negb andb].
      change (String c (d ++ "/")) with (String c d ++ "/")%string.
      rewrite all_slashes_append.
      destruct (all_slashes (String c d)) eqn:Hall.
      * rewrite all_slashes_endswith in Hend by (assumption || discriminate).
        discriminate.
      * cbn [andb negb fst]. now apply rstrip_slash_append.
Qed.

Lemma isabs_glob_dirname (input_dir pat : string) :
  has_slash pat = false ->
  isabs (glob_dirname input_dir pat) = isabs input_dir.
Proof.
  intros Hpat. rewrite glob_dirname_eq by assumption.
  destruct (all_slashes input_dir) eqn:Hall; [reflexivity|].
  destruct (rstrip_slash_decomp input_dir) as [k Hk].
  rewrite Hk at 2. symmetry. now apply isabs_append, all_slashes_false.
Qed.

Lemma split_slash_slashes (k : nat) :
  filter is_part (split_slash_acc (slashes_string k) "") = [].
Proof. induction k as [|k IH]; cbn; [reflexivity|exact IH]. Qed.

Lemma not_slash_slashes (c : ascii) (k : nat) :
  Ascii.eqb c "/" = false ->
  match slashes_string k with
  | String c3 _ => Ascii.eqb c "/" && negb (Ascii.eqb c3 "/")
  | EmptyString => Ascii.eqb c "/"
  end = false.
Proof. intros ->. now destruct (slashes_string k). Qed.

(** Slashes at the end of a path change neither its root nor its parts. *)
Lemma Path_trailing_slashes (r : string) (k : nat) :
  rstrip_slash r = r -> r <> "" ->
  Path (r ++ slashes_string k) = Path r.
Proof.
  intros Hr Hne. unfold Path. f_equal.
  - f_equal. destruct r as [|c1 [|c2 [|c3 r]]]; [now elim Hne| | |].
    + cbn [rstrip_slash String.eqb andb] in Hr.
      destruct (Ascii.eqb c1 "/") eqn:H1; [discriminate|].
      cbn [String.append]. rewrite !initial_slashes_chars. now rewrite H1.
    + cbn [rstrip_slash String.eqb andb] in Hr.
      destruct (Ascii.eqb c2 "/") eqn:H2.
      * cbn [String.eqb andb] in Hr.
        destruct (Ascii.eqb c1 "/"); discriminate.
      * cbn [String.append]. rewrite !initial_slashes_chars.
        destruct (Ascii.eqb c1 "/"); [|reflexivity].
        destruct (slashes_string k); now rewrite ?H2.
    + cbn [String.append]. apply initial_slashes_three.
  - unfold split_slash. destruct k as [|k]; [now rewrite string_append_nil_r|].
    cbn [slashes_string]. rewrite split_slash_acc_append, filter_app.
    now rewrite split_slash_slashes, app_nil_r.
Qed.

Lemma Path_glob_dirname (input_dir pat : string) :
  has_slash pat = false ->
  Path (glob_dirname input_dir pat) = Path input_dir.
Proof.
  intros Hpat. rewrite glob_dirname_eq by assumption.
  destruct (all_slashes input_dir) eqn:Hall; [reflexivity|].
  destruct (rstrip_slash_decomp input_dir) as [k Hk].
  rewrite Hk at 2. symmetry.
  apply Path_trailing_slashes; [apply rstrip_slash_idem|].
  now apply all_slashes_false.
Qed.

End GlobDirname.
(** * The scan *)

Lemma node_induction (Q : node -> Prop) :
  (forall name, Q (File name)) ->
  (forall name children, Forall Q children -> Q (Dir name children)) ->
  forall n, Q n.
Proof.
  intros HF HD. fix IH 1. intros [name|name children]; [apply HF|].
  apply HD. induction children as [|c children IHc]; constructor;
    [apply IH|exact IHc].
Qed.

Lemma glob1_In (entries : list node) (pat x : string) :
  In x (glob1 entries pat) -> exists n, In n entries /\ node_name n = x.
Proof.
  unfold glob1. intros H. apply filter_In in H as [H _].
  assert (In x (map node_name entries)) as Hin
    by (destruct (ishidden pat); [assumption|now apply filter_In in H]).
  apply in_map_iff in Hin as (n & Hn & Hin). eauto.
Qed.

Lemma well_named_name (n : node) :
  well_named n = true -> plain_name (node_name n) = true.
Proof.
  destruct n as [name|name children]; cbn; [trivial|].
  intros H. now apply andb_true_iff in H.
Qed.

Lemma glob_rec_relative (pat : string) (n : node) :
  forall dirname path,
    well_named n = true -> isabs dirname = false ->
    In path (glob_rec pat dirname n) -> isabs path = false.
Proof.
  induction n as [name|name children IH] using node_induction;
    intros dirname path Hwn Hrel; cbn [glob_rec]; [intros []|].
  cbn [well_named] in Hwn. apply andb_true_iff in Hwn as [Hname Hch].
  destruct (ishidden name); [intros []|].
  assert (isabs (path_join dirname name) = false) as Hdir
    by (rewrite isabs_path_join; [assumption|now apply plain_name_relative]).
  rewrite forallb_forall in Hch. rewrite Forall_forall in IH.
  intros Hin. apply in_app_or in Hin as [Hin|Hin].
  - apply in_map_iff in Hin as (x & <- & Hx).
    apply glob1_In in Hx as (c & Hc & <-).
    rewrite isabs_path_join; [assumption|].
    apply plain_name_relative, well_named_name; auto.
  - apply in_flat_map in Hin as (c & Hc & Hin).
    eapply IH; eauto.
Qed.

Lemma get_files_In (tree : list node) (input_dir path : string) :
  In path (get_files tree input_dir)
  <-> In path (glob_recursive tree input_dir "*.*").
Proof.
  unfold get_files, sorted. cbn [app].
  pose proof (StringSort.Permuted_sort (glob_recursive tree input_dir "*.*")) as Hp.
  split; intros H.
  - eapply Permutation_in; [apply Permutation_sym|]; eassumption.
  - eapply Permutation_in; eassumption.
Qed.

Lemma get_files_relative (tree : list node) (input_dir path : string) :
  forallb well_named tree = true -> isabs input_dir = false ->
  In path (get_files tree input_dir) -> isabs path = false.
Proof.
  intros Hwn Hrel Hin. apply get_files_In in Hin.
  unfold glob_recursive in Hin. cbv zeta in Hin.
  assert (isabs (glob_dirname input_dir "*.*") = false) as Hdir
    by (now rewrite isabs_glob_dirname).
  rewrite forallb_forall in Hwn.
  apply in_app_or in Hin as [Hin|Hin].
  - apply in_map_iff in Hin as (x & <- & Hx).
    apply glob1_In in Hx as (c & Hc & <-).
    rewrite isabs_path_join; [assumption|].
    apply plain_name_relative, well_named_name; auto.
  - apply in_flat_map in Hin as (c & Hc & Hin).
    eapply glob_rec_relative; eauto.
Qed.

Lemma glob_rec_below (pat : string) (n : node) :
  forall top dirname path,
    well_named n = true -> below top dirname ->
    In path (glob_rec pat dirname n) -> below top path.
Proof.
  induction n as [name|name children IH] using node_induction;
    intros top dirname path Hwn Hdir; cbn [glob_rec]; [intros []|].
  cbn [well_named] in Hwn. apply andb_true_iff in Hwn as [Hname Hch].
  destruct (ishidden name); [intros []|].
  assert (below top (path_join dirname name)) as Hsub
    by now apply below_path_join.
  rewrite forallb_forall in Hch. rewrite Forall_forall in IH.
  intros Hin. apply in_app_or in Hin as [Hin|Hin].
  - apply in_map_iff in Hin as (x & <- & Hx).
    apply glob1_In in Hx as (c & Hc & <-).
    apply below_path_join; [|assumption].
    apply well_named_name; auto.
  - apply in_flat_map in Hin as (c & Hc & Hin).
    eapply IH; eauto.
Qed.

Lemma below_glob_dirname (input_dir path : string) :
  below (glob_dirname input_dir "*.*") path <-> below input_dir path.
Proof. unfold below. now rewrite Path_glob_dirname. Qed.

Lemma get_files_below (tree : list node) (input_dir path : string) :
  forallb well_named tree = true ->
  In path (get_files tree input_dir) -> below input_dir path.
Proof.
  intros Hwn Hin. apply get_files_In in Hin.
  unfold glob_recursive in Hin. cbv zeta in Hin.
  rewrite forallb_forall in Hwn. apply below_glob_dirname.
  apply in_app_or in Hin as [Hin|Hin].
  - apply in_map_iff in Hin as (x & <- & Hx).
    apply glob1_In in Hx as (c & Hc & <-).
    apply below_path_join; [|apply below_refl].
    apply well_named_name; auto.
  - apply in_flat_map in Hin as (c & Hc & Hin).
    eapply glob_rec_below; eauto using below_refl.
Qed.

Lemma relative_to_below (cwd input_dir path : string) :
  isabs input_dir = true ->
  Path (abspath cwd input_dir) = Path input_dir ->
  below input_dir path ->
  exists rel, relative_to (Path path) (Path (abspath cwd input_dir)) = Ok rel.
Proof.
  intros Habs Hbase (extra & Hpath). rewrite Hbase, Hpath.
  unfold relative_to, abs_parts. cbn [root parts].
  assert (String.eqb (root (Path input_dir)) "" = false) as ->.
  { unfold Path; cbn [root].
    destruct (initial_slashes_abs _ Habs) as [-> | ->]; reflexivity. }
  cbn [List.length Nat.eqb firstn]. rewrite firstn_app, Nat.sub_diag, firstn_all.
  cbn [firstn]. rewrite app_nil_r. unfold strings_eqb.
  destruct (list_eq_dec string_dec _ _) as [|Hne]; [|now elim Hne].
  cbn [negb]. eauto.
Qed.

(** * The log file under a relative input directory *)

Lemma log_loop_relative (cwd input_dir : string) (file_name : checked)
    (rest : list checked) (written : list string) :
  isabs cwd = true -> isabs (fst file_name) = false ->
  log_loop cwd (file_name :: rest) input_dir written
  = (written, Raise ValueError).
Proof.
  intros Hcwd Hrel. cbn [log_loop].
  now rewrite relative_to_raises by (try apply abspath_abs; assumption).
Qed.

Lemma filter_nil_Forall {A : Type} (f : A -> bool) (l : list A) :
  filter f l = [] -> Forall (fun x => f x = false) l.
Proof.
  induction l as [|x l IH]; cbn [filter]; [constructor|].
  destruct (f x) eqn:Hx; [discriminate|]. intros H. constructor; auto.
Qed.

(** C10: with the working directory absolute, as it always is, file names
    without a slash and an input directory without pattern characters: when
    [input_dir] is relative and the classification returned with some file
    rejected, [write_log_file] raises [ValueError] at the first rejected
    file, before writing a line; so the run does not return a count, and
    when its copies succeeded and the log file opened it ends in that
    [ValueError] with the log file empty. *)
Theorem relative_input_dir_raises (P : Pillow) (fs : filesystem)
    (cwd : string) (tree : list node) (input_dir output_dir logfile : string)
    (checked_files : list checked) :
  isabs cwd = true ->
  forallb well_named tree = true ->
  has_magic input_dir = false ->
  isabs input_dir = false ->
  check_files P (get_files tree input_dir) output_dir = Ok checked_files ->
  (exists c, In c checked_files /\ snd c <> 0) ->
  write_log_file cwd logfile (snd (separate_files checked_files)) input_dir
  = ([], Raise ValueError)
  /\ (forall n,
        returned (pre_processsing P fs cwd tree input_dir output_dir logfile)
        <> Ok n)
  /\ (snd (perform_copies (copyfile fs) []
             (copy_valid_files (accepted checked_files) output_dir)) = Ok tt ->
      open_w fs logfile = Ok tt ->
      returned (pre_processsing P fs cwd tree input_dir output_dir logfile)
      = Raise ValueError
      /\ logged (pre_processsing P fs cwd tree input_dir output_dir logfile)
         = Some []).
Proof.
  intros Hcwd Hwn _ Hrel Hres (c & Hc & Hcode).
  pose proof (check_files_Ok P _ _ _ Hres) as [Hfst _].
  assert (write_log_file cwd logfile (snd (separate_files checked_files)) input_dir
          = ([], Raise ValueError)) as Hlog.
  { rewrite separate_files_filter. cbn [snd].
    destruct (filter (fun c => negb (snd c =? 0)) checked_files)
      as [|x rest] eqn:Hinv.
    - exfalso.
      assert (In c (filter (fun c => negb (snd c =? 0)) checked_files)) as Hin.
      { apply filter_In. split; [assumption|].
        apply negb_true_iff, Z.eqb_neq. assumption. }
      now rewrite Hinv in Hin.
    - unfold write_log_file. apply log_loop_relative; [assumption|].
      apply (get_files_relative tree input_dir); try assumption.
      rewrite <- Hfst. apply in_map.
      assert (In x (filter (fun c => negb (snd c =? 0)) checked_files)) as Hin
        by (rewrite Hinv; now left).
      now apply filter_In in Hin. }
  split; [exact Hlog|].
  rewrite (pre_processsing_checked P fs cwd tree input_dir output_dir
             logfile checked_files Hres), Hlog.
  split.
  - intros n. destruct (perform_copies _ _ _) as [copies [u|e]];
      [|discriminate].
    destruct (open_w fs logfile); discriminate.
  - intros Hcopies Hopen. rewrite (perform_copies_Ok _ _ Hcopies), Hopen. auto.
Qed.

Lemma relative_input_dir_raises_witness :
  (isabs "/data" = true
   /\ forallb well_named Examples.tree = true
   /\ has_magic "in" = false
   /\ isabs "in" = false
   /\ check_files (Raster.pillow Examples.tree_disk)
        (get_files Examples.tree "in") "out"
      = Ok [("in/b.jpg"%string, 0); ("in/sub.d"%string, 3);
            ("in/sub.d/a.JPG"%string, 0); ("in/z/y/q.png"%string, 1)])
  /\ returned (pre_processsing (Raster.pillow Examples.tree_disk) copies_all
                 "/data" Examples.tree "in" "out" "log.txt") = Raise ValueError
  /\ logged (pre_processsing (Raster.pillow Examples.tree_disk) copies_all
               "/data" Examples.tree "in" "out" "log.txt") = Some [].
Proof.
  assert (check_files (Raster.pillow Examples.tree_disk)
            (get_files Examples.tree "in") "out"
          = Ok [("in/b.jpg"%string, 0); ("in/sub.d"%string, 3);
                ("in/sub.d/a.JPG"%string, 0); ("in/z/y/q.png"%string, 1)])
    as Hrun by (vm_compute; reflexivity).
  split; [repeat split; first [reflexivity|exact Hrun]|].
  destruct (relative_input_dir_raises (Raster.pillow Examples.tree_disk)
              copies_all "/data" Examples.tree "in" "out" "log.txt" _
              eq_refl eq_refl eq_refl eq_refl Hrun) as (_ & _ & Hraise).
  - exists ("in/sub.d"%string, 3). split; [cbn; auto|discriminate].
  - apply Hraise; vm_compute; reflexivity.
Defined.

(** The same tree under an absolute input directory: the run returns the
    number of accepted files and the log has one line per rejected entry. *)
Example absolute_input_dir_run :
  pre_processsing (Raster.pillow Examples.tree_disk_abs) copies_all "/data"
    Examples.tree "/data/in" "out" "log.txt"
  = {| copied := [("/data/in/b.jpg", "out/000001.jpg");
                  ("/data/in/sub.d/a.JPG", "out/000002.jpg")]%string;
       logged := Some [String.append "sub.d;3" (String "010" "");
                       String.append "z/y/q.png;1" (String "010" "")];
       returned := Ok 2 |}.
Proof. vm_compute. reflexivity. Qed.

(** * What the scan lists *)

Lemma fnmatch_chars_star (pat name : list ascii) :
  fnmatch_chars ("*"%char :: pat) name
  = fnmatch_chars pat name
    || match name with
       | [] => false
       | _ :: name' => fnmatch_chars ("*"%char :: pat) name'
       end.
Proof. destruct name; reflexivity. Qed.

Lemma fnmatch_chars_any (name : list ascii) :
  fnmatch_chars ["*"%char] name = true.
Proof.
  induction name as [|c name IH]; rewrite fnmatch_chars_star; [reflexivity|].
  rewrite IH. apply orb_true_r.
Qed.

Lemma fnmatch_chars_dot (name : list ascii) :
  fnmatch_chars ["*"; "."; "*"]%char name = true <-> In "."%char name.
Proof.
  induction name as [|c name IH]; rewrite fnmatch_chars_star.
  - cbn. split; [discriminate|tauto].
  - rewrite orb_true_iff, IH. cbn [fnmatch_chars In].
    change (Ascii.eqb "." "*") with false. change (Ascii.eqb "." "?") with false.
    cbn [orb]. rewrite fnmatch_chars_any, andb_true_r, Ascii.eqb_eq.
    split; intros [H|H]; auto.
Qed.

Lemma glob1_dotted (entries : list node) (x : string) :
  In x (glob1 entries "*.*")
  <-> exists n, In n entries /\ node_name n = x /\ dotted_name x.
Proof.
  unfold glob1, dotted_name. change (ishidden "*.*") with false. cbv iota.
  rewrite filter_In, filter_In, in_map_iff, negb_true_iff.
  unfold fnmatch. change (list_ascii_of_string "*.*") with ["*"; "."; "*"]%char.
  rewrite fnmatch_chars_dot.
  split.
  - intros [[(n & Hn & Hin) Hhid] Hdot]. eauto 6.
  - intros (n & Hin & Hn & Hhid & Hdot). eauto 6.
Qed.

Lemma listed_glob (dirname : string) (entries : list node) (path : string) :
  Forall glob_rec_listed entries ->
  (listed dirname entries path
   <-> In path (map (path_join dirname) (glob1 entries "*.*")
                ++ flat_map (glob_rec "*.*" dirname) entries)).
Proof.
  intros Hall. rewrite Forall_forall in Hall.
  rewrite in_app_iff, in_map_iff, in_flat_map. split.
  - intros H. inversion H as [d e n Hin Hdot|d e name children p Hin Hhid Hsub];
      subst.
    + left. exists (node_name n). split; [reflexivity|].
      apply glob1_dotted. eauto.
    + right. exists (Dir name children). split; [assumption|].
      apply (Hall _ Hin). auto.
  - intros [(x & <- & Hx)|(n & Hin & Hp)].
    + apply glob1_dotted in Hx as (n & Hin & <- & Hdot).
      now apply listed_here.
    + apply (Hall _ Hin) in Hp. destruct n as [name|name children]; [easy|].
      destruct Hp as [Hhid Hsub]. eapply listed_below; eassumption.
Qed.

Lemma glob_rec_is_listed (n : node) : glob_rec_listed n.
Proof.
  induction n as [name|name children IH] using node_induction;
    intros dirname path; cbn [glob_rec]; [tauto|].
  destruct (ishidden name).
  - split; [intros []|intros [? _]; discriminate].
  - rewrite <- listed_glob by assumption. tauto.
Qed.

(** C4 (as the code has it): for an input directory without pattern
    characters, the scan returns, sorted by full path, the entries that the
    pattern [**/*.*] matches: the files and the directories whose name has a
    dot in it and does not begin with one, in the input directory and in the
    directories under it that are not hidden, each path starting with the
    input directory without its trailing slashes; a classification that
    returns has one entry for each of them, in that order. *)
Theorem get_files_listing (tree : list node) (input_dir : string) :
  has_magic input_dir = false ->
  Sorted (fun a b => is_true (String.leb a b)) (get_files tree input_dir)
  /\ Permutation (glob_recursive tree input_dir "*.*") (get_files tree input_dir)
  /\ glob_dirname input_dir "*.*"
     = (if all_slashes input_dir then input_dir else rstrip_slash input_dir)
  /\ (forall path,
        In path (get_files tree input_dir)
        <-> listed (glob_dirname input_dir "*.*") tree path)
  /\ (forall (P : Pillow) (output_dir : string) (checked_files : list checked),
        check_files P (get_files tree input_dir) output_dir = Ok checked_files ->
        map fst checked_files = get_files tree input_dir).
Proof.
  intros _. split; [|split; [|split; [|split]]].
  - exact (StringSort.Sorted_sort _).
  - exact (StringSort.Permuted_sort _).
  - now apply glob_dirname_eq.
  - intros path. rewrite get_files_In. unfold glob_recursive. cbv zeta.
    symmetry. apply listed_glob.
    apply Forall_forall. intros n _. apply glob_rec_is_listed.
  - intros P out res Hres. now apply check_files_Ok in Hres.
Qed.

(** A file without a dot in its name and a hidden file are in the input
    directory and are not scanned, and a directory with a dot in its name
    is scanned as if it were a file. *)
Lemma all_files_counterexample :
  In (File "README") Examples.tree
  /\ In (File ".hidden.jpg") Examples.tree
  /\ get_files Examples.tree "in"
     = ["in/b.jpg"; "in/sub.d"; "in/sub.d/a.JPG"; "in/z/y/q.png"]%string
  /\ ~ In (path_join "in" "README") (get_files Examples.tree "in").
Proof.
  assert (get_files Examples.tree "in"
          = ["in/b.jpg"; "in/sub.d"; "in/sub.d/a.JPG"; "in/z/y/q.png"]%string)
    as Hscan by (vm_compute; reflexivity).
  split; [cbn; auto|]. split; [cbn; auto|]. split; [exact Hscan|].
  rewrite Hscan. cbn. intros [H|[H|[H|[H|[]]]]]; discriminate.
Qed.

Lemma get_files_listing_witness :
  has_magic "in/" = false
  /\ glob_dirname "in/" "*.*" = "in"%string
  /\ listed "in" Examples.tree "in/sub.d/a.JPG"
  /\ In "in/sub.d/a.JPG"%string (get_files Examples.tree "in/").
Proof.
  assert (listed "in" Examples.tree "in/sub.d/a.JPG") as Hlisted.
  { apply listed_below with (name := "sub.d"%string)
                            (children := [File "a.JPG"; File "x"]).
    - cbn. auto.
    - reflexivity.
    - apply (listed_here "in/sub.d" [File "a.JPG"; File "x"] (File "a.JPG")).
      + now left.
      + split; [reflexivity|]. cbn. auto. }
  split; [reflexivity|]. split; [reflexivity|]. split; [exact Hlisted|].
  destruct (get_files_listing Examples.tree "in/" eq_refl)
    as (_ & _ & _ & Hiff & _).
  apply Hiff. exact Hlisted.
Defined.

(** * Further properties of a run *)

Lemma app_eq_same_length {A : Type} (a b c d : list A) :
  List.length a = List.length c -> a ++ b = c ++ d -> a = c /\ b = d.
Proof.
  revert c. induction a as [|x a IH]; intros [|y c]; cbn; try discriminate.
  - auto.
  - intros [= Hlen] [= -> Heq]. destruct (IH c Hlen Heq) as [-> ->]. auto.
Qed.

Section RunFacts.

Context (P : Pillow).

(** A code 0 or 6 comes out of the comparison loop, after the first five
    rules have passed. *)
Lemma validate_file_compared (file_path output_dir : string)
    (l : list checked) (c : Z) :
  validate_file P file_path output_dir l = Ok c ->
  c = 0 \/ c = 6 ->
  exists im, passes_five P file_path im /\ compare_loop P im l 0 = Ok c.
Proof.
  unfold validate_file.
  destruct (Image_open P file_path) as [im|[| |name]] eqn:Hopen;
    [|intros [= <-] [|]; discriminate|discriminate|discriminate].
  destruct (endswith_any _ _) eqn:Hext; cbn [negb];
    [|intros [= <-] [|]; discriminate].
  destruct (Z.gtb_spec (getsize P file_path) 10000) as [Hsize|]; cbn [negb bind];
    [|intros [= <-] [|]; discriminate].
  destruct (stat_var P im) as [v|] eqn:Hstat; cbn [bind]; [|discriminate].
  destruct (Qle_bool _ _) eqn:Hvar; cbn [negb];
    [intros [= <-] [|]; discriminate|].
  destruct (im_size P im) as [w h] eqn:Hdims.
  destruct (Z.geb_spec w 100) as [Hw|]; cbn [negb andb orb];
    [|intros [= <-] [|]; discriminate].
  destruct (Z.geb_spec h 100) as [Hh|]; cbn [negb andb orb];
    [|intros [= <-] [|]; discriminate].
  destruct (Z.ltb_spec 2 (Z.of_nat (List.length (array_shape P im)))) as [|Hs];
    [intros [= <-] [|]; discriminate|].
  intros Hloop _. exists im. split; [|assumption].
  repeat split; try assumption; try lia.
  - exists v. split; [exact Hstat|].
    apply Qnot_le_lt. intros Hle. apply Qle_bool_iff in Hle. congruence.
  - rewrite Hdims. cbn. lia.
  - rewrite Hdims. cbn. lia.
Qed.

(** The entry of a file in the result of a run, with the entries before
    it. *)
Lemma check_files_In (files : list string) (output_dir file_path : string)
    (res : list checked) (c : Z) :
  check_files P files output_dir = Ok res ->
  In (file_path, c) res ->
  exists before after,
    res = before ++ (file_path, c) :: after
    /\ validate_file P file_path output_dir before = Ok c.
Proof.
  intros Hres Hin. apply in_split in Hin as (r1 & r2 & Heq).
  pose proof Hres as Hfst. apply check_loop_Ok in Hfst as (new & Hnew & Hfst & _).
  cbn [app] in Hnew. subst new.
  rewrite Heq, map_app in Hfst. cbn [map fst] in Hfst. rewrite <- Hfst in Hres.
  apply check_files_split in Hres
    as (before & c' & after & Hsplit & _ & Hpre & _ & Hv).
  assert (List.length before = List.length r1) as Hlen
    by (rewrite <- (length_map fst before), Hpre; apply length_map).
  rewrite Heq in Hsplit.
  apply app_eq_same_length in Hsplit; [|now symmetry].
  destruct Hsplit as [<- [= <- <-]]. eauto.
Qed.

Lemma pool_In (l : list checked) (e : checked) :
  In e (pool l) <-> In e l /\ snd e <> 3 /\ snd e <> 1.
Proof.
  unfold pool. rewrite filter_In. unfold in_pool.
  rewrite andb_true_iff, !negb_true_iff, !Z.eqb_neq. tauto.
Qed.

Lemma same_as_true (im1 : Image P) (e : checked) :
  same_as P im1 e = true <->
  exists im2, Image_open P (fst e) = Ok im2
              /\ difference_getbbox P im1 im2 = Ok None.
Proof.
  unfold same_as, is_equal.
  destruct (Image_open P (fst e)) as [im2|].
  - destruct (difference_getbbox P im1 im2) as [[b|]|[| |name]] eqn:Hd; cbn;
      split.
    all: try discriminate.
    all: try (intros (x & [= <-] & Hx); congruence).
    intros _. eauto.
  - split; [discriminate|]. intros (x & Hx & _). discriminate.
Qed.

(** Entries outside the pool do not count: two lists of checked entries
    with the same pool give the same run. *)
Lemma check_loop_same_pool (files : list string) (output_dir : string) :
  forall chk chk' new,
    pool chk = pool chk' ->
    check_loop P files output_dir chk = Ok (chk ++ new) ->
    check_loop P files output_dir chk' = Ok (chk' ++ new).
Proof.
  induction files as [|f files IH]; intros chk chk' new Hpool; cbn [check_loop].
  - intros [= H]. rewrite <- app_nil_r in H at 1.
    apply app_inv_head in H. subst new. now rewrite app_nil_r.
  - rewrite <- (validate_file_pool P f output_dir chk'), <- Hpool,
      validate_file_pool.
    destruct (validate_file P f output_dir chk) as [c|]; cbn [bind];
      [|discriminate].
    intros H. pose proof H as Hnew.
    apply check_loop_Ok in Hnew as (new' & Hnew & _).
    rewrite <- app_assoc in Hnew. apply app_inv_head in Hnew. subst new.
    rewrite app_assoc in H |- *.
    apply IH with (chk := chk ++ [(f, c)]); [|exact H].
    unfold pool. rewrite !filter_app. fold (pool chk) (pool chk').
    now rewrite Hpool.
Qed.

End RunFacts.

(** X5: the classification of a file does not depend on the files after it:
    when the classification of a list followed by another returns, so does
    that of the first list alone, and the result begins with it; and when
    the classification of the first list raises, that of the whole raises
    the same. *)
Theorem check_files_prefix (P : Pillow) (pre post : list string)
    (output_dir : string) :
  (forall checked_files,
     check_files P (pre ++ post) output_dir = Ok checked_files ->
     exists r1 r2,
       check_files P pre output_dir = Ok r1
       /\ checked_files = r1 ++ r2
       /\ map fst r1 = pre
       /\ map fst r2 = post)
  /\ (forall e,
        check_files P pre output_dir = Raise e ->
        check_files P (pre ++ post) output_dir = Raise e).
Proof.
  unfold check_files. rewrite check_loop_app. split.
  - intros res.
    destruct (check_loop P pre output_dir []) as [r1|] eqn:H1; cbn [bind];
      [|discriminate].
    intros Hres. apply check_loop_Ok in Hres as (r2 & -> & H2 & _).
    apply check_loop_Ok in H1 as (new & -> & Hpre & _).
    exists new, r2. auto.
  - intros e ->. reflexivity.
Qed.

Lemma check_files_prefix_witness :
  check_files (Raster.pillow Examples.mixed)
    (["in/a.jpg"%string; "in/b.txt"%string] ++ ["in/i.jpg"%string]) "out"
  = Ok [("in/a.jpg"%string, 0); ("in/b.txt"%string, 1); ("in/i.jpg"%string, 6)]
  /\ (exists r1 r2,
        check_files (Raster.pillow Examples.mixed)
          ["in/a.jpg"; "in/b.txt"]%string "out" = Ok r1
        /\ [("in/a.jpg"%string, 0); ("in/b.txt"%string, 1); ("in/i.jpg"%string, 6)]
           = r1 ++ r2)
  /\ check_files (Raster.pillow Scenes.cut_files) ["in/u.jpg"%string] "out"
     = Raise IOError
  /\ check_files (Raster.pillow Scenes.cut_files)
       (["in/u.jpg"%string] ++ ["in/a.jpg"%string]) "out"
     = Raise IOError.
Proof.
  assert (check_files (Raster.pillow Examples.mixed)
            (["in/a.jpg"%string; "in/b.txt"%string] ++ ["in/i.jpg"%string]) "out"
          = Ok [("in/a.jpg"%string, 0); ("in/b.txt"%string, 1);
                ("in/i.jpg"%string, 6)]) as Hrun
    by (vm_compute; reflexivity).
  assert (check_files (Raster.pillow Scenes.cut_files) ["in/u.jpg"%string] "out"
          = Raise IOError) as Hcut
    by (vm_compute; reflexivity).
  split; [exact Hrun|]. split; [|split; [exact Hcut|]].
  - destruct (proj1 (check_files_prefix (Raster.pillow Examples.mixed)
                       ["in/a.jpg"; "in/b.txt"]%string ["in/i.jpg"%string] "out")
                _ Hrun) as (r1 & r2 & H1 & Heq & _).
    exists r1, r2. auto.
  - exact (proj2 (check_files_prefix (Raster.pillow Scenes.cut_files)
                    ["in/u.jpg"%string] ["in/a.jpg"%string] "out") _ Hcut).
Defined.

(** X6: a file gets code 6 only when it has passed the first five rules and
    an earlier file of the run, whose code is neither 3 nor 1, opens to an
    image whose difference with it is empty; in particular the first file
    of a run never gets 6. *)
Theorem duplicate_has_earlier_match (P : Pillow) (pre post : list string)
    (file_path output_dir : string) (checked_files : list checked) :
  check_files P (pre ++ file_path :: post) output_dir = Ok checked_files ->
  nth_error checked_files (List.length pre) = Some (file_path, 6) ->
  exists im earlier c im2,
    passes_five P file_path im
    /\ In (earlier, c) (firstn (List.length pre) checked_files)
    /\ In earlier pre
    /\ c <> 3 /\ c <> 1
    /\ Image_open P earlier = Ok im2
    /\ difference_getbbox P im im2 = Ok None.
Proof.
  intros Hres Hth.
  apply check_files_split in Hres
    as (before & c & after & -> & _ & Hpre & _ & Hv).
  assert (List.length before = List.length pre) as Hlen
    by (rewrite <- (length_map fst before), Hpre; reflexivity).
  rewrite <- Hlen, nth_error_app2, Nat.sub_diag in Hth by lia.
  injection Hth as ->.
  destruct (validate_file_compared P _ _ _ _ Hv (or_intror eq_refl))
    as (im & Hfive & Hloop).
  apply compare_loop_Ok in Hloop.
  destruct (existsb (same_as P im) (pool before)) eqn:Hex; [|discriminate].
  apply existsb_exists in Hex as ([g c] & Hin & Hsame).
  apply pool_In in Hin as (Hin & H3 & H1). cbn [snd] in H3, H1.
  apply same_as_true in Hsame as (im2 & Hopen & Hdiff). cbn [fst] in Hopen.
  exists im, g, c, im2.
  split; [assumption|]. repeat split; try assumption.
  - rewrite <- Hlen, firstn_app, Nat.sub_diag, firstn_all, app_nil_r.
    assumption.
  - rewrite <- Hpre. now apply (in_map fst) in Hin.
Qed.

Lemma duplicate_has_earlier_match_witness :
  check_files (Raster.pillow Examples.twins)
    (["in/a.jpg"%string] ++ "in/b.jpg"%string :: []) "out"
  = Ok [("in/a.jpg"%string, 0); ("in/b.jpg"%string, 6)]
  /\ exists im earlier c im2,
       passes_five (Raster.pillow Examples.twins) "in/b.jpg" im
       /\ In earlier ["in/a.jpg"%string]
       /\ c <> 3 /\ c <> 1
       /\ Image_open (Raster.pillow Examples.twins) earlier = Ok im2
       /\ difference_getbbox (Raster.pillow Examples.twins) im im2 = Ok None.
Proof.
  assert (check_files (Raster.pillow Examples.twins)
            (["in/a.jpg"%string] ++ "in/b.jpg"%string :: []) "out"
          = Ok [("in/a.jpg"%string, 0); ("in/b.jpg"%string, 6)]) as Hrun
    by (vm_compute; reflexivity).
  split; [exact Hrun|].
  destruct (duplicate_has_earlier_match _ _ _ _ _ _ Hrun eq_refl)
    as (im & g & c & im2 & H1 & _ & H2 & H3 & H4 & H5 & H6).
  exists im, g, c, im2. auto 10.
Defined.

(** The copies of a run are among the calls for the accepted entries. *)
Lemma pre_processsing_copied (P : Pillow) (fs : filesystem) (cwd : string)
    (tree : list node) (input_dir output_dir logfile : string)
    (res : list checked) :
  check_files P (get_files tree input_dir) output_dir = Ok res ->
  exists rest,
    copy_valid_files (accepted res) output_dir
    = copied (pre_processsing P fs cwd tree input_dir output_dir logfile)
      ++ rest.
Proof.
  intros Hres.
  rewrite (pre_processsing_checked P fs cwd tree input_dir output_dir
             logfile res Hres).
  destruct (perform_copies_spec (copyfile fs)
              (copy_valid_files (accepted res) output_dir) [])
    as (done & rest & Hcalls & Hfst & _).
  exists rest. rewrite Hcalls at 1. f_equal. cbn [app] in Hfst.
  destruct (perform_copies _ _ _) as [copies [u|e]]; cbn [fst] in Hfst;
    [|now subst].
  subst done. destruct (open_w fs logfile); [|reflexivity].
  now destruct (write_log_file _ _ _ _) as [lines [[]|e]].
Qed.

(** X7: every file a run copies has passed the first five rules: it
    decodes, has an allowed extension, more than 10000 bytes, some variance,
    at least 100 by 100 pixels and at most two array dimensions; and it is
    one of the files scanned. *)
Theorem copied_files_pass (P : Pillow) (fs : filesystem) (cwd : string)
    (tree : list node)
    (input_dir output_dir logfile source destination : string) :
  In (source, destination)
     (copied (pre_processsing P fs cwd tree input_dir output_dir logfile)) ->
  In source (get_files tree input_dir)
  /\ exists im, passes_five P source im.
Proof.
  destruct (check_files P (get_files tree input_dir) output_dir) as [res|e]
    eqn:Hres.
  2:{ unfold pre_processsing. rewrite Hres. intros []. }
  pose proof (check_files_Ok P _ _ _ Hres) as [Hfst _].
  destruct (pre_processsing_copied P fs cwd tree _ _ logfile res Hres)
    as (rest & Hcalls).
  intros Hin.
  assert (In (source, destination) (copy_valid_files (accepted res) output_dir))
    as Hcall by (rewrite Hcalls; apply in_or_app; now left).
  clear Hin. apply (in_map fst) in Hcall. cbn [fst] in Hcall.
  unfold copy_valid_files in Hcall. rewrite copy_loop_sources in Hcall.
  apply in_map_iff in Hcall as ([f c] & Hf & Hin). cbn [fst] in Hf. subst f.
  apply filter_In in Hin as [Hin Hc]. cbn [snd] in Hc.
  apply Z.eqb_eq in Hc. subst c. split.
  - rewrite <- Hfst. now apply (in_map fst) in Hin.
  - destruct (check_files_In P _ _ _ _ _ Hres Hin) as (before & after & _ & Hv).
    destruct (validate_file_compared P _ _ _ _ Hv (or_introl eq_refl))
      as (im & Hfive & _).
    eauto.
Qed.

Lemma copied_files_pass_witness :
  In ("in/b.jpg", "out/000001.jpg")%string
     (copied (pre_processsing (Raster.pillow Examples.tree_disk) copies_all
                "/data" Examples.tree "in" "out" "log.txt"))
  /\ In "in/b.jpg"%string (get_files Examples.tree "in")
  /\ exists im, passes_five (Raster.pillow Examples.tree_disk) "in/b.jpg" im.
Proof.
  assert (In ("in/b.jpg", "out/000001.jpg")%string
            (copied (pre_processsing (Raster.pillow Examples.tree_disk)
                       copies_all "/data" Examples.tree "in" "out" "log.txt")))
    as Hin by (vm_compute; auto).
  split; [exact Hin|].
  exact (copied_files_pass _ _ _ _ _ _ _ _ _ Hin).
Defined.

(** X8: no two accepted files of a run are equal for the duplicate check:
    when two files both get code 0, the difference of the later with the
    earlier one raised or has a bounding box. *)
Theorem accepted_files_differ (P : Pillow) (pre mid post : list string)
    (a b output_dir : string) (checked_files : list checked) :
  check_files P (pre ++ a :: mid ++ b :: post) output_dir = Ok checked_files ->
  nth_error checked_files (List.length pre) = Some (a, 0) ->
  nth_error checked_files (List.length pre + S (List.length mid)) = Some (b, 0) ->
  exists ima imb,
    Image_open P a = Ok ima
    /\ Image_open P b = Ok imb
    /\ difference_getbbox P imb ima <> Ok None.
Proof.
  intros Hres Ha Hb.
  assert (In (a, 0) checked_files) as Hina by (eapply nth_error_In; eassumption).
  destruct (check_files_In P _ _ _ _ _ Hres Hina) as (ba & aa & _ & Hva).
  destruct (validate_file_compared P _ _ _ _ Hva (or_introl eq_refl))
    as (ima & (Hopa & _) & _).
  replace (pre ++ a :: mid ++ b :: post)
    with ((pre ++ a :: mid) ++ b :: post) in Hres
    by (rewrite <- app_assoc; reflexivity).
  apply check_files_split in Hres
    as (before & c & after & -> & _ & Hpre & _ & Hv).
  assert (List.length before = (List.length pre + S (List.length mid))%nat) as Hlen.
  { rewrite <- (length_map fst before), Hpre, length_app. reflexivity. }
  rewrite nth_error_app1 in Ha by lia.
  rewrite <- Hlen, nth_error_app2, Nat.sub_diag in Hb by lia.
  injection Hb as ->.
  destruct (validate_file_compared P _ _ _ _ Hv (or_introl eq_refl))
    as (imb & (Hopb & _) & Hloop).
  apply compare_loop_Ok in Hloop.
  destruct (existsb (same_as P imb) (pool before)) eqn:Hex; [discriminate|].
  exists ima, imb. repeat split; try assumption.
  intros Hdiff.
  assert (existsb (same_as P imb) (pool before) = true) as Htrue.
  { apply existsb_exists. exists (a, 0). split.
    - apply pool_In. split; [eapply nth_error_In; eassumption|].
      cbn. split; discriminate.
    - apply same_as_true. exists ima. auto. }
  congruence.
Qed.

Lemma accepted_files_differ_witness :
  check_files (Raster.pillow Examples.tree_disk)
    ([] ++ "in/b.jpg"%string :: [] ++ "in/sub.d/a.JPG"%string :: []) "out"
  = Ok [("in/b.jpg"%string, 0); ("in/sub.d/a.JPG"%string, 0)]
  /\ exists ima imb,
       Image_open (Raster.pillow Examples.tree_disk) "in/b.jpg" = Ok ima
       /\ Image_open (Raster.pillow Examples.tree_disk) "in/sub.d/a.JPG"
          = Ok imb
       /\ difference_getbbox (Raster.pillow Examples.tree_disk) imb ima
          <> Ok None.
Proof.
  assert (check_files (Raster.pillow Examples.tree_disk)
            ([] ++ "in/b.jpg"%string :: [] ++ "in/sub.d/a.JPG"%string :: [])
            "out"
          = Ok [("in/b.jpg"%string, 0); ("in/sub.d/a.JPG"%string, 0)]) as Hrun
    by (vm_compute; reflexivity).
  split; [exact Hrun|].
  exact (accepted_files_differ _ _ _ _ _ _ _ _ Hrun eq_refl eq_refl).
Defined.

(** X13: a file with code 3 or 1 leaves no trace in the rest of the run:
    the run over the other files alone gives them the same codes. *)
Theorem unreadable_file_invisible (P : Pillow) (pre post : list string)
    (file_path output_dir : string) (checked_files : list checked) :
  check_files P (pre ++ file_path :: post) output_dir = Ok checked_files ->
  exists before c after,
    checked_files = before ++ (file_path, c) :: after
    /\ map fst before = pre
    /\ (c = 3 \/ c = 1 ->
        check_files P (pre ++ post) output_dir = Ok (before ++ after)).
Proof.
  intros Hres. pose proof Hres as Hsplit.
  apply check_files_split in Hsplit
    as (before & c & after & -> & Hb & Hpre & _ & Hv).
  exists before, c, after. split; [reflexivity|]. split; [assumption|].
  intros Hc. unfold check_files in *.
  rewrite check_loop_app, Hb in Hres |- *. cbn [bind check_loop] in Hres |- *.
  rewrite Hv in Hres. cbn [bind] in Hres.
  apply check_loop_same_pool with (chk := before ++ [(file_path, c)]).
  - rewrite pool_snoc. now destruct Hc as [-> | ->].
  - rewrite <- app_assoc. exact Hres.
Qed.

Lemma unreadable_file_invisible_witness :
  check_files (Raster.pillow Examples.mixed)
    (["in/a.jpg"%string] ++ "in/b.txt"%string :: ["in/i.jpg"%string]) "out"
  = Ok [("in/a.jpg"%string, 0); ("in/b.txt"%string, 1); ("in/i.jpg"%string, 6)]
  /\ check_files (Raster.pillow Examples.mixed)
       (["in/a.jpg"%string] ++ ["in/i.jpg"%string]) "out"
     = Ok [("in/a.jpg"%string, 0); ("in/i.jpg"%string, 6)].
Proof.
  assert (check_files (Raster.pillow Examples.mixed)
            (["in/a.jpg"%string] ++ "in/b.txt"%string :: ["in/i.jpg"%string])
            "out"
          = Ok [("in/a.jpg"%string, 0); ("in/b.txt"%string, 1);
                ("in/i.jpg"%string, 6)]) as Hrun
    by (vm_compute; reflexivity).
  split; [exact Hrun|].
  destruct (unreadable_file_invisible _ _ _ _ _ _ Hrun)
    as (before & c & after & Heq & Hpre & Hgone).
  change [("in/a.jpg"%string, 0); ("in/b.txt"%string, 1); ("in/i.jpg"%string, 6)]
    with ([("in/a.jpg"%string, 0)] ++ ("in/b.txt"%string, 1)
          :: [("in/i.jpg"%string, 6)]) in Heq.
  apply app_eq_same_length in Heq as [<- [= <- <-]].
  - apply Hgone. now right.
  - transitivity (List.length (map fst before));
      [rewrite Hpre; reflexivity|apply length_map].
Defined.

(** * Further properties of the log and of the copies *)

Lemma log_loop_lines (cwd input_dir : string) (invalid_files : list checked) :
  forall written,
    exists done new,
      fst (log_loop cwd invalid_files input_dir written) = written ++ new
      /\ Forall2 (logged_as cwd input_dir) done new
      /\ log_loop cwd done input_dir written = (written ++ new, Ok tt)
      /\ match snd (log_loop cwd invalid_files input_dir written) with
         | Ok _ => invalid_files = done
         | Raise e =>
             exists x rest,
               invalid_files = done ++ x :: rest
               /\ relative_to (Path (fst x)) (Path (abspath cwd input_dir))
                  = Raise e
         end.
Proof.
  induction invalid_files as [|x l IH]; intros written; cbn [log_loop].
  - exists [], []. rewrite app_nil_r. cbn. auto.
  - destruct (relative_to (Path (fst x)) (Path (abspath cwd input_dir)))
      as [rel|e] eqn:Hrel.
    + destruct (IH (written ++ [(str_of_path rel ++ ";" ++ str_of_int (snd x)
                                 ++ String "010" "")%string]))
        as (done & new & Hfst & Hall & Hdone & Hend).
      exists (x :: done), ((str_of_path rel ++ ";" ++ str_of_int (snd x)
                            ++ String "010" "")%string :: new).
      rewrite <- app_assoc in Hfst, Hdone. cbn [app] in Hfst, Hdone.
      split; [exact Hfst|]. split; [|split].
      * constructor; [|assumption]. exists rel. auto.
      * cbn [log_loop]. rewrite Hrel. exact Hdone.
      * destruct (snd (log_loop cwd l input_dir _)) as [u|e].
        -- now subst l.
        -- destruct Hend as (y & rest & -> & Hy). exists y, rest. auto.
    + exists [], []. rewrite app_nil_r. cbn. split; [reflexivity|].
      split; [constructor|]. split; [reflexivity|]. exists x, l. auto.
Qed.

(** X4: the log holds one line for every rejected entry up to the first
    whose path is not below the input directory, in order, and nothing
    after it; it is the log that these entries alone would give.  The
    writer raises exactly when there is such an entry. *)
Theorem write_log_file_lines (cwd logfile input_dir : string)
    (invalid_files : list checked) :
  exists done,
    Forall2 (logged_as cwd input_dir) done
      (fst (write_log_file cwd logfile invalid_files input_dir))
    /\ write_log_file cwd logfile done input_dir
       = (fst (write_log_file cwd logfile invalid_files input_dir), Ok tt)
    /\ match snd (write_log_file cwd logfile invalid_files input_dir) with
       | Ok _ => invalid_files = done
       | Raise e =>
           exists x rest,
             invalid_files = done ++ x :: rest
             /\ relative_to (Path (fst x)) (Path (abspath cwd input_dir))
                = Raise e
       end.
Proof.
  unfold write_log_file.
  destruct (log_loop_lines cwd input_dir invalid_files [])
    as (done & new & Hfst & Hall & Hdone & Hend).
  cbn [app] in Hfst, Hdone. exists done. rewrite Hfst. auto.
Qed.

Example write_log_file_stops :
  write_log_file "/" "log.txt" Scenes.stray_entries "/data/in"
  = ([String.append "a.txt;1" (String "010" "")], Raise ValueError).
Proof. vm_compute. reflexivity. Qed.

Lemma log_loop_Ok_length (cwd input_dir : string) (invalid_files : list checked)
    (written lines : list string) (u : unit) :
  log_loop cwd invalid_files input_dir written = (lines, Ok u) ->
  List.length lines = (List.length written + List.length invalid_files)%nat.
Proof.
  intros H.
  destruct (log_loop_lines cwd input_dir invalid_files written)
    as (done & new & Hfst & Hall & _ & Hend).
  rewrite H in Hfst, Hend. cbn [fst snd] in Hfst, Hend. subst.
  rewrite length_app. f_equal. symmetry. eapply Forall2_length; eassumption.
Qed.

(** X1: when a run returns, the number it returns is the number of files
    it copied, the log has one line for each rejected file, and the two
    together account for every file scanned. *)
Theorem pre_processsing_count (P : Pillow) (fs : filesystem) (cwd : string)
    (tree : list node) (input_dir output_dir logfile : string) (n : Z) :
  returned (pre_processsing P fs cwd tree input_dir output_dir logfile) = Ok n ->
  exists lines,
    logged (pre_processsing P fs cwd tree input_dir output_dir logfile)
    = Some lines
    /\ n = Z.of_nat (List.length
                       (copied (pre_processsing P fs cwd tree input_dir
                                  output_dir logfile)))
    /\ (List.length (copied (pre_processsing P fs cwd tree input_dir output_dir
                               logfile))
        + List.length lines
        = List.length (get_files tree input_dir))%nat.
Proof.
  destruct (check_files P (get_files tree input_dir) output_dir) as [res|e]
    eqn:Hres.
  2:{ unfold pre_processsing. rewrite Hres. discriminate. }
  pose proof (check_files_Ok P _ _ _ Hres) as [Hfst _].
  rewrite (pre_processsing_checked P fs cwd tree input_dir output_dir logfile
             res Hres), separate_files_filter.
  cbn [snd].
  destruct (perform_copies (copyfile fs) []
              (copy_valid_files (accepted res) output_dir))
    as [copies [[]|e]] eqn:Hcopies; [|discriminate].
  assert (copies = copy_valid_files (accepted res) output_dir) as ->.
  { pose proof (perform_copies_Ok (copyfile fs)
                  (copy_valid_files (accepted res) output_dir)) as H.
    rewrite Hcopies in H. cbn [snd] in H. specialize (H eq_refl). congruence. }
  destruct (open_w fs logfile); [|discriminate].
  destruct (write_log_file cwd logfile _ input_dir) as [lines [u|e]] eqn:Hlog;
    cbn [returned logged copied]; [|discriminate].
  intros [= <-]. exists lines. split; [reflexivity|].
  assert (List.length (copy_valid_files (accepted res) output_dir)
          = List.length (accepted res)) as Hlen.
  { unfold copy_valid_files.
    transitivity (List.length (map fst (copy_loop 0 (accepted res) output_dir)));
      [symmetry; apply length_map|].
    rewrite copy_loop_sources. apply length_map. }
  rewrite Hlen. split; [reflexivity|].
  apply log_loop_Ok_length in Hlog. cbn [List.length plus] in Hlog.
  unfold accepted. rewrite Hlog, filter_length, <- Hfst. symmetry.
  apply length_map.
Qed.

Lemma pre_processsing_count_witness :
  returned (pre_processsing (Raster.pillow Examples.tree_disk_abs) copies_all
              "/data" Examples.tree "/data/in" "out" "log.txt") = Ok 2
  /\ exists lines,
       logged (pre_processsing (Raster.pillow Examples.tree_disk_abs) copies_all
                 "/data" Examples.tree "/data/in" "out" "log.txt") = Some lines
       /\ (List.length
             (copied (pre_processsing (Raster.pillow Examples.tree_disk_abs)
                        copies_all "/data" Examples.tree "/data/in" "out"
                        "log.txt"))
           + List.length lines
           = List.length (get_files Examples.tree "/data/in"))%nat.
Proof.
  assert (returned (pre_processsing (Raster.pillow Examples.tree_disk_abs)
                      copies_all "/data" Examples.tree "/data/in" "out"
                      "log.txt") = Ok 2)
    as Hrun by (vm_compute; reflexivity).
  split; [exact Hrun|].
  destruct (pre_processsing_count _ _ _ _ _ _ _ _ Hrun) as (lines & Hl & _ & Hsum).
  exists lines. auto.
Defined.

Lemma filter_all_true {A : Type} (f : A -> bool) (l : list A) :
  Forall (fun x => f x = true) l ->
  filter f l = l /\ filter (fun x => negb (f x)) l = [].
Proof.
  induction 1 as [|x l Hx _ [IH1 IH2]]; cbn [filter]; [auto|].
  rewrite Hx. cbn [negb]. now rewrite IH1, IH2.
Qed.

(** X3: a run whose classification returned with nothing rejected, whose
    copies succeeded and whose log file opened, returns, whatever the input
    directory: every scanned file is copied, the log stays empty, and the
    number returned is the number of files scanned. *)
Theorem pre_processsing_no_rejects (P : Pillow) (fs : filesystem)
    (cwd : string) (tree : list node) (input_dir output_dir logfile : string)
    (checked_files : list checked) :
  check_files P (get_files tree input_dir) output_dir = Ok checked_files ->
  Forall (fun c => snd c = 0) checked_files ->
  snd (perform_copies (copyfile fs) []
         (copy_valid_files checked_files output_dir)) = Ok tt ->
  open_w fs logfile = Ok tt ->
  pre_processsing P fs cwd tree input_dir output_dir logfile
  = {| copied := copy_valid_files checked_files output_dir;
       logged := Some [];
       returned := Ok (Z.of_nat (List.length (get_files tree input_dir))) |}.
Proof.
  intros Hres Hall Hcopies Hopen.
  pose proof (check_files_Ok P _ _ _ Hres) as [Hfst _].
  rewrite (pre_processsing_checked P fs cwd tree input_dir output_dir logfile
             checked_files Hres), separate_files_filter.
  cbn [snd]. unfold accepted.
  destruct (filter_all_true (fun c => snd c =? 0) checked_files) as [-> ->].
  { eapply Forall_impl; [|exact Hall]. cbn. intros c Hc. now apply Z.eqb_eq. }
  rewrite (perform_copies_Ok _ _ Hcopies), Hopen.
  unfold write_log_file. cbn [log_loop].
  now rewrite <- Hfst, length_map.
Qed.

Lemma pre_processsing_no_rejects_witness :
  (check_files (Raster.pillow Scenes.clean_disk)
     (get_files Scenes.clean_tree "in") "out"
   = Ok [("in/b.jpg"%string, 0); ("in/sub/a.JPG"%string, 0)]
   /\ Forall (fun c => snd c = 0)
        [("in/b.jpg"%string, 0); ("in/sub/a.JPG"%string, 0)]
   /\ snd (perform_copies (copyfile copies_all) []
             (copy_valid_files
                [("in/b.jpg"%string, 0); ("in/sub/a.JPG"%string, 0)] "out"))
      = Ok tt
   /\ open_w copies_all "log.txt" = Ok tt)
  /\ pre_processsing (Raster.pillow Scenes.clean_disk) copies_all "/data"
       Scenes.clean_tree "in" "out" "log.txt"
     = {| copied := [("in/b.jpg", "out/000001.jpg");
                     ("in/sub/a.JPG", "out/000002.jpg")]%string;
          logged := Some [];
          returned := Ok 2 |}.
Proof.
  assert (check_files (Raster.pillow Scenes.clean_disk)
            (get_files Scenes.clean_tree "in") "out"
          = Ok [("in/b.jpg"%string, 0); ("in/sub/a.JPG"%string, 0)]) as Hrun
    by (vm_compute; reflexivity).
  assert (Forall (fun c : checked => snd c = 0)
            [("in/b.jpg"%string, 0); ("in/sub/a.JPG"%string, 0)]) as Hall
    by (repeat constructor).
  split; [repeat split; first [exact Hrun|exact Hall|reflexivity]|].
  rewrite (pre_processsing_no_rejects (Raster.pillow Scenes.clean_disk)
             copies_all "/data" Scenes.clean_tree "in" "out" "log.txt" _
             Hrun Hall eq_refl eq_refl).
  reflexivity.
Defined.

(** A scan that finds nothing, on a file system where the log file opens:
    the run returns 0, copies nothing and leaves the log empty. *)
Example pre_processsing_empty_scan :
  pre_processsing (Raster.pillow Scenes.clean_disk) copies_all "/data" [] "in"
    "out" "log.txt"
  = {| copied := []; logged := Some []; returned := Ok 0 |}.
Proof. reflexivity. Qed.

Lemma append_inj_l (a x y : string) : (a ++ x = a ++ y)%string -> x = y.
Proof. induction a as [|c a IH]; cbn; [trivial|]. intros [= H]. auto. Qed.

Lemma append_inj_r (x y z : string) : (x ++ z = y ++ z)%string -> x = y.
Proof.
  revert y. induction x as [|c x IH]; intros [|d y] H; cbn in H.
  - reflexivity.
  - apply (f_equal String.length) in H. cbn in H.
    rewrite string_length_append in H. lia.
  - apply (f_equal String.length) in H. cbn in H.
    rewrite string_length_append in H. lia.
  - injection H as -> H. f_equal. auto.
Qed.

Lemma path_join_inj (a x y : string) :
  isabs x = false -> isabs y = false ->
  path_join a x = path_join a y -> x = y.
Proof.
  intros Hx Hy. unfold path_join. fold (isabs x) (isabs y). rewrite Hx, Hy.
  destruct (_ || _); intros H; apply append_inj_l in H; [assumption|].
  now apply (append_inj_l "/") in H.
Qed.

Lemma format_06d_relative (n : nat) :
  isabs (format_06d n ++ ".jpg") = false.
Proof.
  unfold format_06d.
  destruct (6 - String.length (NilZero.string_of_uint (Nat.to_uint n)))%nat;
    cbn [zeros String.append]; [|now rewrite isabs_cons].
  unfold NilZero.string_of_uint.
  destruct (Nat.to_uint n) eqn:Hd; cbn [NilEmpty.string_of_uint String.append];
    now rewrite isabs_cons.
Qed.

Lemma NoDup_map_injective {A B : Type} (f : A -> B) (l : list A) :
  (forall x y, f x = f y -> x = y) -> NoDup l -> NoDup (map f l).
Proof.
  intros Hinj. induction 1 as [|x l Hx _ IH]; cbn [map]; constructor;
    [|assumption].
  intros Hin. apply in_map_iff in Hin as (y & Hy & Hin).
  apply Hinj in Hy. now subst y.
Qed.

(** X10: the copies of a run go to pairwise different destinations, so no
    copy overwrites another, and there are as many as files to copy. *)
Theorem copy_valid_files_distinct (valid_files : list checked)
    (output_dir : string) :
  NoDup (map snd (copy_valid_files valid_files output_dir))
  /\ List.length (copy_valid_files valid_files output_dir)
     = List.length valid_files.
Proof.
  split.
  - unfold copy_valid_files. rewrite copy_loop_destinations.
    apply NoDup_map_injective; [|apply seq_NoDup].
    intros i j H.
    apply path_join_inj in H; try apply format_06d_relative.
    apply append_inj_r in H. now apply format_06d_inj.
  - unfold copy_valid_files.
    transitivity (List.length (map fst (copy_loop 0 valid_files output_dir)));
      [symmetry; apply length_map|].
    rewrite copy_loop_sources. apply length_map.
Qed.


(** X17: when a copy raises, the run raises the same exception: the copies
    before it were made, in order, the log file is never opened, and
    nothing is returned.  When the copies succeed and the log file does not
    open, the run raises what [open] raised, after copying every accepted
    file. *)
Theorem pre_processsing_write_error (P : Pillow) (fs : filesystem)
    (cwd : string) (tree : list node) (input_dir output_dir logfile : string)
    (checked_files : list checked) :
  check_files P (get_files tree input_dir) output_dir = Ok checked_files ->
  (forall e,
     snd (perform_copies (copyfile fs) []
            (copy_valid_files (accepted checked_files) output_dir)) = Raise e ->
     exists made call rest,
       copy_valid_files (accepted checked_files) output_dir
       = made ++ call :: rest
       /\ copyfile fs made call = Raise e
       /\ pre_processsing P fs cwd tree input_dir output_dir logfile
          = {| copied := made; logged := None; returned := Raise e |})
  /\ (forall e,
        snd (perform_copies (copyfile fs) []
               (copy_valid_files (accepted checked_files) output_dir)) = Ok tt ->
        open_w fs logfile = Raise e ->
        pre_processsing P fs cwd tree input_dir output_dir logfile
        = {| copied := copy_valid_files (accepted checked_files) output_dir;
             logged := None; returned := Raise e |}).
Proof.
  intros Hres.
  rewrite (pre_processsing_checked P fs cwd tree input_dir output_dir logfile
             checked_files Hres).
  split.
  - intros e He.
    destruct (perform_copies_spec (copyfile fs)
                (copy_valid_files (accepted checked_files) output_dir) [])
      as (made & rest & Hcalls & Hfst & Hsnd).
    rewrite He in Hsnd. destruct Hsnd as (call & rest' & -> & Hcall).
    cbn [app] in Hfst, Hcall. exists made, call, rest'.
    split; [exact Hcalls|]. split; [exact Hcall|].
    destruct (perform_copies _ _ _) as [copies r]. cbn [fst snd] in *.
    now subst.
  - intros e Hcopies Hopen.
    now rewrite (perform_copies_Ok _ _ Hcopies), Hopen.
Qed.

Lemma pre_processsing_write_error_witness :
  (check_files (Raster.pillow Examples.tree_disk)
     (get_files Examples.tree "in") "out"
   = Ok [("in/b.jpg"%string, 0); ("in/sub.d"%string, 3);
         ("in/sub.d/a.JPG"%string, 0); ("in/z/y/q.png"%string, 1)]
   /\ snd (perform_copies (copyfile no_output_dir) []
             (copy_valid_files
                (accepted [("in/b.jpg"%string, 0); ("in/sub.d"%string, 3);
                           ("in/sub.d/a.JPG"%string, 0);
                           ("in/z/y/q.png"%string, 1)]) "out"))
      = Raise IOError
   /\ open_w no_log_dir "log.txt" = Raise IOError)
  /\ pre_processsing (Raster.pillow Examples.tree_disk) no_output_dir "/data"
       Examples.tree "in" "out" "log.txt"
     = {| copied := []; logged := None; returned := Raise IOError |}
  /\ pre_processsing (Raster.pillow Examples.tree_disk) no_log_dir "/data"
       Examples.tree "in" "out" "log.txt"
     = {| copied := [("in/b.jpg", "out/000001.jpg");
                     ("in/sub.d/a.JPG", "out/000002.jpg")]%string;
          logged := None; returned := Raise IOError |}.
Proof.
  assert (check_files (Raster.pillow Examples.tree_disk)
            (get_files Examples.tree "in") "out"
          = Ok [("in/b.jpg"%string, 0); ("in/sub.d"%string, 3);
                ("in/sub.d/a.JPG"%string, 0); ("in/z/y/q.png"%string, 1)])
    as Hrun by (vm_compute; reflexivity).
  split; [repeat split; first [exact Hrun|reflexivity]|].
  split.
  - destruct (proj1 (pre_processsing_write_error
                       (Raster.pillow Examples.tree_disk) no_output_dir "/data"
                       Examples.tree "in" "out" "log.txt" _ Hrun)
                IOError eq_refl)
      as (made & call & rest & Hcalls & _ & Hrun').
    pose proof Hrun' as Hmade. vm_compute in Hmade. injection Hmade as <-.
    exact Hrun'.
  - rewrite (proj2 (pre_processsing_write_error
                      (Raster.pillow Examples.tree_disk) no_log_dir "/data"
                      Examples.tree "in" "out" "log.txt" _ Hrun)
               IOError eq_refl eq_refl).
    reflexivity.
Defined.

(** * Further properties of the extension rule *)

Lemma lower_ascii_idempotent (c : ascii) :
  lower_ascii (lower_ascii c) = lower_ascii c.
Proof. destruct c as [[] [] [] [] [] [] [] []]; reflexivity. Qed.

Lemma lower_idempotent (s : string) : lower (lower s) = lower s.
Proof.
  induction s as [|c s IH]; cbn [lower]; [reflexivity|].
  now rewrite lower_ascii_idempotent, IH.
Qed.

Lemma lower_substring (s : string) :
  forall n m, substring n m (lower s) = lower (substring n m s).
Proof.
  induction s as [|c s IH]; intros [|n] [|m]; cbn [lower substring];
    try reflexivity.
  - now rewrite IH.
  - apply IH.
  - apply IH.
Qed.

(** A suffix of a lower-cased string is in lower case itself. *)
Lemma endswith_lower (s suffix : string) :
  endswith (lower s) suffix = true -> lower suffix = suffix.
Proof.
  unfold endswith. intros H. apply andb_true_iff in H as [_ H].
  apply String.eqb_eq in H. rewrite lower_substring in H.
  rewrite <- H. apply lower_idempotent.
Qed.

Lemma endswith_any_lower (s : string) :
  endswith_any (lower s) allowed_extensions
  = endswith (lower s) ".jpg" || endswith (lower s) ".jpeg".
Proof.
  unfold endswith_any, allowed_extensions. cbn [existsb].
  assert (endswith (lower s) ".JPG" = false) as ->.
  { apply not_true_is_false. intros H. apply endswith_lower in H. discriminate. }
  assert (endswith (lower s) ".JPEG" = false) as ->.
  { apply not_true_is_false. intros H. apply endswith_lower in H. discriminate. }
  cbn [orb]. now rewrite orb_false_r.
Qed.

(** X9: a file that decodes gets code 1 exactly when its path, in lower
    case, ends neither in [.jpg] nor in [.jpeg]: the rule does not depend on
    the case of the path, and the entries [.JPG] and [.JPEG] of the tuple
    never match. *)
Theorem validate_file_extension (P : Pillow) (file_path output_dir : string)
    (checked_files : list checked) (im : Image P) :
  Image_open P file_path = Ok im ->
  (validate_file P file_path output_dir checked_files = Ok 1
   <-> endswith (lower file_path) ".jpg" = false
       /\ endswith (lower file_path) ".jpeg" = false)
  /\ endswith (lower file_path) ".JPG" = false
  /\ endswith (lower file_path) ".JPEG" = false.
Proof.
  intros Hopen. split; [|split].
  - rewrite <- orb_false_iff, <- endswith_any_lower.
    unfold validate_file. rewrite Hopen.
    destruct (endswith_any _ _); cbn [negb]; [|tauto].
    split; [|discriminate]. intros H. exfalso.
    destruct (negb (getsize P file_path >? 10000)); [discriminate|].
    cbn [bind] in H.
    destruct (stat_var P im) as [v|]; cbn [bind] in H; [|discriminate].
    destruct (negb (negb (Qle_bool _ _))); [discriminate|].
    destruct (im_size P im) as [w h].
    destruct (negb _ || _); [discriminate|].
    apply compare_loop_Ok in H. destruct (existsb _ _); discriminate.
  - apply not_true_is_false. intros H. apply endswith_lower in H. discriminate.
  - apply not_true_is_false. intros H. apply endswith_lower in H. discriminate.
Qed.

Lemma validate_file_extension_witness :
  Image_open (Raster.pillow Examples.mixed) "in/b.txt"
  = Ok (Raster.ramp 100 100)
  /\ validate_file (Raster.pillow Examples.mixed) "in/b.txt" "out" [] = Ok 1
  /\ Image_open (Raster.pillow Examples.mixed) "in/f.JPG"
     = Ok (Raster.ramp 50 200)
  /\ validate_file (Raster.pillow Examples.mixed) "in/f.JPG" "out" [] <> Ok 1.
Proof.
  split; [reflexivity|]. split.
  - apply (proj1 (validate_file_extension (Raster.pillow Examples.mixed)
                    "in/b.txt" "out" [] (Raster.ramp 100 100) eq_refl)).
    split; reflexivity.
  - split; [reflexivity|]. intros H.
    apply (proj1 (validate_file_extension (Raster.pillow Examples.mixed)
                    "in/f.JPG" "out" [] (Raster.ramp 50 200) eq_refl)) in H.
    destruct H as [H _]. discriminate.
Defined.

(** * Further properties of the scan *)

Lemma string_compare_trans (a : string) :
  forall b c,
    String.compare a b <> Gt -> String.compare b c <> Gt ->
    String.compare a c <> Gt.
Proof.
  induction a as [|x a IH]; intros [|y b] [|z c]; cbn [String.compare];
    try congruence.
  unfold Ascii.compare.
  destruct (N.compare_spec (N_of_ascii x) (N_of_ascii y)) as [Hxy|Hxy|Hxy];
    destruct (N.compare_spec (N_of_ascii y) (N_of_ascii z)) as [Hyz|Hyz|Hyz];
    destruct (N.compare_spec (N_of_ascii x) (N_of_ascii z)) as [Hxz|Hxz|Hxz];
    try congruence; try lia.
  apply IH.
Qed.

Lemma string_leb_trans (a b c : string) :
  String.leb a b = true -> String.leb b c = true -> String.leb a c = true.
Proof.
  unfold String.leb. intros Hab Hbc.
  pose proof (string_compare_trans a b c) as H.
  destruct (String.compare a b), (String.compare b c), (String.compare a c);
    try reflexivity; try discriminate; exfalso; apply H; congruence.
Qed.

(** Two sorted lists with the same elements are the same list. *)
Lemma sorted_unique (l1 : list string) :
  forall l2,
    StronglySorted (fun a b => is_true (String.leb a b)) l1 ->
    StronglySorted (fun a b => is_true (String.leb a b)) l2 ->
    Permutation l1 l2 -> l1 = l2.
Proof.
  induction l1 as [|a l1 IH]; intros l2 H1 H2 Hperm.
  - apply Permutation_nil in Hperm. now subst.
  - destruct l2 as [|b l2];
      [apply Permutation_sym, Permutation_nil in Hperm; discriminate|].
    apply StronglySorted_inv in H1 as [H1 Ha].
    apply StronglySorted_inv in H2 as [H2 Hb].
    rewrite Forall_forall in Ha, Hb.
    assert (a = b) as ->.
    { assert (In a (b :: l2)) as [->|Hin]
        by (eapply Permutation_in; [exact Hperm|now left]); [reflexivity|].
      assert (In b (a :: l1)) as [->|Hin']
        by (eapply Permutation_in; [apply Permutation_sym; exact Hperm|now left]);
        [reflexivity|].
      apply String.leb_antisym; [apply Ha|apply Hb]; assumption. }
    f_equal. apply IH; try assumption.
    eapply Permutation_cons_inv; eassumption.
Qed.

Lemma sorted_Permutation (l l' : list string) :
  Permutation l l' -> sorted l = sorted l'.
Proof.
  intros Hperm. unfold sorted.
  assert (Transitive (fun a b => is_true (StringOrder.leb a b))) as Htrans
    by (intros a b c; apply string_leb_trans).
  apply sorted_unique.
  - apply StringSort.StronglySorted_sort, Htrans.
  - apply StringSort.StronglySorted_sort, Htrans.
  - rewrite <- (StringSort.Permuted_sort l), <- (StringSort.Permuted_sort l').
    assumption.
Qed.

Lemma glob1_cons (n : node) (l : list node) (pat : string) :
  glob1 (n :: l) pat = glob1 [n] pat ++ glob1 l pat.
Proof.
  unfold glob1. cbn [map].
  destruct (ishidden pat); cbn [filter];
    repeat match goal with
           | |- context [if ?b then _ else _] => destruct b; cbn [filter app]
           end; reflexivity.
Qed.

(** The matches in a directory, entry by entry. *)
Lemma glob_by_entry (pat dirname : string) (l : list node) :
  Permutation
    (map (path_join dirname) (glob1 l pat) ++ flat_map (glob_rec pat dirname) l)
    (flat_map (entry_matches pat dirname) l).
Proof.
  induction l as [|n l IH];
    [unfold glob1; destruct (ishidden pat); cbn; constructor|].
  rewrite glob1_cons, map_app. cbn [flat_map]. unfold entry_matches at 1.
  rewrite <- !app_assoc. apply Permutation_app_head.
  rewrite Permutation_app_swap_app. apply Permutation_app_head. exact IH.
Qed.

Lemma reordered_matches (pat : string) (l l' : list node) :
  reordered l l' ->
  forall dirname,
    Permutation (flat_map (entry_matches pat dirname) l)
                (flat_map (entry_matches pat dirname) l').
Proof.
  induction 1 as [|name l l' _ IH|name ch ch' l l' _ IHch _ IH
                  |x y l l' _ IH|l l' l'' _ IH1 _ IH2];
    intros dirname; cbn [flat_map].
  - constructor.
  - apply Permutation_app_head, IH.
  - apply Permutation_app; [|apply IH].
    unfold entry_matches. apply Permutation_app_head. cbn [glob_rec].
    destruct (ishidden name); [constructor|].
    rewrite !glob_by_entry. apply IHch.
  - rewrite !app_assoc. apply Permutation_app; [|apply IH].
    apply Permutation_app_comm.
  - etransitivity; [apply IH1|apply IH2].
Qed.

(** X11: the scan does not depend on the order in which the directories
    list their entries: trees that differ only by that order give the same
    list of files. *)
Theorem get_files_any_listing_order (tree tree' : list node)
    (input_dir : string) :
  reordered tree tree' ->
  get_files tree input_dir = get_files tree' input_dir.
Proof.
  intros Hre. unfold get_files. cbn [app]. apply sorted_Permutation.
  unfold glob_recursive. cbv zeta. rewrite !glob_by_entry.
  now apply reordered_matches.
Qed.

Lemma reordered_cons (n : node) :
  forall l, reordered l l -> reordered (n :: l) (n :: l).
Proof.
  induction n as [name|name children IH] using node_induction; intros l Hl.
  - now constructor.
  - constructor; [|assumption].
    induction IH as [|c children Hc _ IHl]; [constructor|]. now apply Hc.
Qed.

Lemma reordered_refl (l : list node) : reordered l l.
Proof.
  induction l as [|n l IH]; [constructor|]. now apply reordered_cons.
Qed.

Lemma get_files_any_listing_order_witness :
  reordered Scenes.listing Scenes.listing_shuffled
  /\ get_files Scenes.listing "in" = get_files Scenes.listing_shuffled "in".
Proof.
  assert (reordered Scenes.listing Scenes.listing_shuffled) as Hre.
  { unfold Scenes.listing, Scenes.listing_shuffled.
    apply reordered_trans
      with (l' := [File "b.jpg"; File "a.png"; Dir "sub.d" [File "a.JPG"]]).
    - apply reordered_file. apply reordered_swap. constructor.
    - apply reordered_swap. apply reordered_refl. }
  split; [exact Hre|].
  exact (get_files_any_listing_order _ _ "in" Hre).
Defined.

(** * Further properties of paths *)

(** X12: for an input directory without pattern characters and file names
    without a slash, every scanned path lies below the input directory,
    with the root and the parts of the input directory first, and is
    absolute exactly when the input directory is. *)
Theorem get_files_below_input_dir (tree : list node) (input_dir path : string) :
  has_magic input_dir = false ->
  forallb well_named tree = true ->
  In path (get_files tree input_dir) ->
  below input_dir path /\ isabs path = isabs input_dir.
Proof.
  intros _ Hwn Hin. pose proof (get_files_below _ _ _ Hwn Hin) as Hbelow.
  split; [assumption|].
  destruct Hbelow as (extra & Hpath).
  apply (f_equal root) in Hpath. unfold Path in Hpath. cbn [root] in Hpath.
  destruct (isabs path) eqn:Hp, (isabs input_dir) eqn:Hd; try reflexivity;
    exfalso.
  - rewrite (initial_slashes_rel _ Hd) in Hpath.
    destruct (initial_slashes_abs _ Hp) as [H|H]; rewrite H in Hpath;
      discriminate.
  - rewrite (initial_slashes_rel _ Hp) in Hpath.
    destruct (initial_slashes_abs _ Hd) as [H|H]; rewrite H in Hpath;
      discriminate.
Qed.

Lemma get_files_below_input_dir_witness :
  has_magic "in//" = false
  /\ forallb well_named Examples.tree = true
  /\ In "in/sub.d/a.JPG"%string (get_files Examples.tree "in//")
  /\ below "in//" "in/sub.d/a.JPG"
  /\ isabs "in/sub.d/a.JPG" = isabs "in//".
Proof.
  assert (In "in/sub.d/a.JPG"%string (get_files Examples.tree "in//")) as Hin
    by (vm_compute; auto).
  split; [reflexivity|]. split; [reflexivity|]. split; [exact Hin|].
  exact (get_files_below_input_dir Examples.tree "in//" _ eq_refl eq_refl Hin).
Defined.

(** X2: with an absolute input directory without pattern characters that
    [os.path.abspath] leaves as it is, up to redundant slashes and dots, and
    file names without a slash: a run whose classification returned, whose
    copies succeeded and whose log file opened, returns; the accepted files
    are copied, the number of them is returned, and the log has one line for
    every rejected file, in the order of the scan, with its path relative to
    the input directory and its code. *)
Theorem absolute_input_dir_completes (P : Pillow) (fs : filesystem)
    (cwd : string) (tree : list node) (input_dir output_dir logfile : string)
    (checked_files : list checked) :
  has_magic input_dir = false ->
  isabs input_dir = true ->
  Path (abspath cwd input_dir) = Path input_dir ->
  forallb well_named tree = true ->
  check_files P (get_files tree input_dir) output_dir = Ok checked_files ->
  snd (perform_copies (copyfile fs) []
         (copy_valid_files (accepted checked_files) output_dir)) = Ok tt ->
  open_w fs logfile = Ok tt ->
  exists lines,
    pre_processsing P fs cwd tree input_dir output_dir logfile
    = {| copied := copy_valid_files (accepted checked_files) output_dir;
         logged := Some lines;
         returned := Ok (Z.of_nat (List.length (accepted checked_files))) |}
    /\ Forall2 (logged_as cwd input_dir)
         (filter (fun c => negb (snd c =? 0)) checked_files) lines.
Proof.
  intros _ Habs Hbase Hwn Hres Hcopies Hopen.
  pose proof (check_files_Ok P _ _ _ Hres) as [Hfst _].
  destruct (log_loop_lines cwd input_dir
              (filter (fun c => negb (snd c =? 0)) checked_files) [])
    as (done & new & Hlines & Hall & _ & Hend).
  cbn [app] in Hlines.
  destruct (log_loop cwd (filter (fun c => negb (snd c =? 0)) checked_files)
              input_dir [])
    as [lines [u|e]] eqn:Hlog; cbn [fst snd] in Hlines, Hend; subst lines.
  - subst done. exists new. split; [|assumption].
    rewrite (pre_processsing_checked P fs cwd tree input_dir output_dir logfile
               checked_files Hres), separate_files_filter.
    cbn [snd]. rewrite (perform_copies_Ok _ _ Hcopies), Hopen.
    unfold write_log_file. rewrite Hlog. reflexivity.
  - exfalso. destruct Hend as (x & rest & Hinv & Hraise).
    assert (In x (filter (fun c => negb (snd c =? 0)) checked_files)) as Hin
      by (rewrite Hinv; apply in_elt).
    apply filter_In in Hin as [Hin _].
    apply (in_map fst) in Hin. rewrite Hfst in Hin.
    destruct (relative_to_below cwd input_dir (fst x) Habs Hbase
                (get_files_below _ _ _ Hwn Hin)) as (rel & Hrel).
    congruence.
Qed.

Lemma absolute_input_dir_completes_witness :
  (has_magic "/data/in" = false
   /\ isabs "/data/in" = true
   /\ Path (abspath "/data" "/data/in") = Path "/data/in"
   /\ forallb well_named Examples.tree = true
   /\ check_files (Raster.pillow Examples.tree_disk_abs)
        (get_files Examples.tree "/data/in") "out"
      = Ok [("/data/in/b.jpg"%string, 0); ("/data/in/sub.d"%string, 3);
            ("/data/in/sub.d/a.JPG"%string, 0);
            ("/data/in/z/y/q.png"%string, 1)])
  /\ pre_processsing (Raster.pillow Examples.tree_disk_abs) copies_all "/data"
       Examples.tree "/data/in" "out" "log.txt"
     = {| copied := [("/data/in/b.jpg", "out/000001.jpg");
                     ("/data/in/sub.d/a.JPG", "out/000002.jpg")]%string;
          logged := Some [String.append "sub.d;3" (String "010" "");
                          String.append "z/y/q.png;1" (String "010" "")];
          returned := Ok 2 |}.
Proof.
  assert (check_files (Raster.pillow Examples.tree_disk_abs)
            (get_files Examples.tree "/data/in") "out"
          = Ok [("/data/in/b.jpg"%string, 0); ("/data/in/sub.d"%string, 3);
                ("/data/in/sub.d/a.JPG"%string, 0);
                ("/data/in/z/y/q.png"%string, 1)]) as Hres
    by (vm_compute; reflexivity).
  split; [repeat split; first [exact Hres|reflexivity]|].
  destruct (absolute_input_dir_completes (Raster.pillow Examples.tree_disk_abs)
              copies_all "/data" Examples.tree "/data/in" "out" "log.txt" _
              eq_refl eq_refl eq_refl eq_refl Hres eq_refl eq_refl)
    as (lines & Hrun & _).
  rewrite Hrun. vm_compute in Hrun. vm_compute.
  injection Hrun as Hl. now rewrite Hl.
Defined.

(** * What the earlier files can change *)

(** X14: the files checked before can change the code of a file only
    between 0 and 6: the codes 3, 1, 2, 4 and 5 depend on the file alone. *)
Theorem validate_file_earlier_files (P : Pillow) (file_path output_dir : string)
    (l l' : list checked) (c c' : Z) :
  validate_file P file_path output_dir l = Ok c ->
  validate_file P file_path output_dir l' = Ok c' ->
  c = c' \/ (c = 0 /\ c' = 6) \/ (c = 6 /\ c' = 0).
Proof.
  unfold validate_file.
  destruct (Image_open P file_path) as [im|[| |name]];
    [|intros [= <-] [= <-]; auto|discriminate|discriminate].
  destruct (negb (endswith_any _ _)); [intros [= <-] [= <-]; auto|].
  destruct (negb (getsize P file_path >? 10000));
    [intros [= <-] [= <-]; auto|].
  cbn [bind]. destruct (stat_var P im) as [v|]; cbn [bind]; [|discriminate].
  destruct (negb (negb (Qle_bool _ _))); [intros [= <-] [= <-]; auto|].
  destruct (im_size P im) as [w h].
  destruct (negb _ || _); [intros [= <-] [= <-]; auto|].
  intros H H'. apply compare_loop_Ok in H, H'.
  destruct (existsb _ (pool l)), (existsb _ (pool l')); subst; auto.
Qed.

Lemma validate_file_earlier_files_witness :
  validate_file (Raster.pillow Examples.twins) "in/b.jpg" "out" [] = Ok 0
  /\ validate_file (Raster.pillow Examples.twins) "in/b.jpg" "out"
       [("in/a.jpg"%string, 0)] = Ok 6
  /\ (0 = 6 \/ (0 = 0 /\ 6 = 6) \/ (0 = 6 /\ 6 = 0)).
Proof.
  assert (validate_file (Raster.pillow Examples.twins) "in/b.jpg" "out" []
          = Ok 0) as H0 by (vm_compute; reflexivity).
  assert (validate_file (Raster.pillow Examples.twins) "in/b.jpg" "out"
            [("in/a.jpg"%string, 0)] = Ok 6) as H6
    by (vm_compute; reflexivity).
  split; [exact H0|]. split; [exact H6|].
  exact (validate_file_earlier_files _ _ _ _ _ _ _ H0 H6).
Defined.


(** * Runs that return *)

(** X15: when the classification returns, every scanned file has one code,
    from 0 to 6, in the order of the scan; [separate_files] splits the
    result into the entries with code 0 and the entries with another code,
    each list in the order of the scan, and the two lists together hold
    every entry once. *)
Theorem check_files_partition (P : Pillow) (sorted_files : list string)
    (output_dir : string) (checked_files : list checked) :
  check_files P sorted_files output_dir = Ok checked_files ->
  map fst checked_files = sorted_files
  /\ Forall (fun c => 0 <= snd c <= 6) checked_files
  /\ separate_files checked_files
     = (filter (fun c => snd c =? 0) checked_files,
        filter (fun c => negb (snd c =? 0)) checked_files)
  /\ Permutation checked_files
       (fst (separate_files checked_files) ++ snd (separate_files checked_files)).
Proof.
  intros Hres. apply check_files_Ok in Hres as [Hfst Hcodes].
  repeat split; try assumption.
  - apply separate_files_filter.
  - rewrite separate_files_filter. apply filter_partition_Permutation.
Qed.

Lemma check_files_partition_witness :
  check_files (Raster.pillow Examples.mixed)
    ["in/a.jpg"; "in/b.txt"; "in/c.jpg"; "in/i.jpg"]%string "out"
  = Ok [("in/a.jpg"%string, 0); ("in/b.txt"%string, 1); ("in/c.jpg"%string, 2);
        ("in/i.jpg"%string, 6)]
  /\ separate_files
       [("in/a.jpg"%string, 0); ("in/b.txt"%string, 1); ("in/c.jpg"%string, 2);
        ("in/i.jpg"%string, 6)]
     = ([("in/a.jpg"%string, 0)],
        [("in/b.txt"%string, 1); ("in/c.jpg"%string, 2); ("in/i.jpg"%string, 6)]).
Proof.
  assert (check_files (Raster.pillow Examples.mixed)
            ["in/a.jpg"; "in/b.txt"; "in/c.jpg"; "in/i.jpg"]%string "out"
          = Ok [("in/a.jpg"%string, 0); ("in/b.txt"%string, 1);
                ("in/c.jpg"%string, 2); ("in/i.jpg"%string, 6)]) as Hrun
    by (vm_compute; reflexivity).
  split; [exact Hrun|].
  destruct (check_files_partition _ _ _ _ Hrun) as (_ & _ & Hsep & _).
  rewrite Hsep. reflexivity.
Defined.

(** X16: the classification returns when the files give the validator
    nothing it does not catch: each of them fails to open with [IOError], or
    opens to an image whose variances are computed and whose difference with
    every other image of the list is computed or refused with
    [ValueError]. *)
Theorem check_files_returns (P : Pillow) (sorted_files : list string)
    (output_dir : string) :
  tame P sorted_files = true ->
  exists checked_files,
    check_files P sorted_files output_dir = Ok checked_files
    /\ map fst checked_files = sorted_files.
Proof.
  intros Htame.
  destruct (check_loop_tame P sorted_files output_dir sorted_files [] Htame)
    as (res & Hres); [apply incl_refl|intros g c []|].
  exists res. split; [exact Hres|]. now apply check_files_Ok in Hres.
Qed.

Lemma check_files_returns_witness :
  tame (Raster.pillow Examples.mixed)
    ["in/a.jpg"; "in/b.txt"; "in/d.jpg"; "in/h.jpg"; "in/i.jpg"]%string = true
  /\ exists checked_files,
       check_files (Raster.pillow Examples.mixed)
         ["in/a.jpg"; "in/b.txt"; "in/d.jpg"; "in/h.jpg"; "in/i.jpg"]%string
         "out" = Ok checked_files
       /\ map fst checked_files
          = ["in/a.jpg"; "in/b.txt"; "in/d.jpg"; "in/h.jpg"; "in/i.jpg"]%string.
Proof.
  assert (tame (Raster.pillow Examples.mixed)
            ["in/a.jpg"; "in/b.txt"; "in/d.jpg"; "in/h.jpg"; "in/i.jpg"]%string
          = true) as Htame
    by (vm_compute; reflexivity).
  split; [exact Htame|].
  exact (check_files_returns _ _ "out" Htame).
Defined.
